(** * Time-series reconciliation, alignment and caching of the_eye_of_AO

    A shallow embedding of the dashboard's time-series core:
    - [JsDate]: the part of the ECMAScript [Date] built-in that the code uses;
    - [JsArray]: [Array.prototype.sort], [new Set(...)] and [Array.prototype.find];
    - [Charts]: [removeDuplicateDates] and [updateStandardCombinedChart] (charts.js);
    - [Api]: the response cache, [fetchProcessData] and the day-number
      adapter of [fetchRuneRealmStats] / [updateRuneRealmChart] (api.js). *)

From Stdlib Require Import ZArith Lia Ascii String.
From stdpp Require Import base decidable list sorting gmap strings pretty.

Local Open Scope Z_scope.
Set Warnings "-clear-no-such-hyp".


(** ** The [Date] built-in

    A time value is an integral number of milliseconds since the Unix epoch.
    The accessors are the ones of ECMAScript (Day, HourFromTime, MinFromTime,
    SecFromTime, WeekDay): floor division and a non-negative remainder, which
    is what [Z.div] and [Z.modulo] compute for a positive divisor. *)
Module JsDate.

Definition msPerSecond : Z := 1000.
Definition msPerMinute : Z := 60000.
Definition msPerHour : Z := 3600000.
Definition msPerDay : Z := 86400000.

(** Day(t): the number of the UTC day that holds [t]. *)
Definition Day (t : Z) : Z := t / msPerDay.

(** TimeWithinDay(t). *)
Definition TimeWithinDay (t : Z) : Z := t mod msPerDay.

Definition getUTCHours (t : Z) : Z := (t / msPerHour) mod 24.
Definition getUTCMinutes (t : Z) : Z := (t / msPerMinute) mod 60.
Definition getUTCSeconds (t : Z) : Z := (t / msPerSecond) mod 60.

(** WeekDay(t): 0 is Sunday; 1 January 1970 was a Thursday. *)
Definition getUTCDay (t : Z) : Z := (Day t + 4) mod 7.

(** [d.setUTCDate(d.getUTCDate() + delta)]: the day of the month moves by
    [delta] days (MakeDay carries into the neighbouring months), the time
    within the day stays. *)
Definition shiftUTCDate (t delta : Z) : Z := t + delta * msPerDay.

(** [d.setUTCHours(0, 0, 0, 0)]. *)
Definition startOfUTCDay (t : Z) : Z := Day t * msPerDay.

(** The text [`${getUTCFullYear()}-${MM}-${DD}`] (and the date part of
    [toISOString()]) names the UTC calendar day of [t]; two time values get
    the same text exactly when they lie on the same UTC day.  The key is
    therefore represented by the day number. *)
Definition utcDateKey (t : Z) : Z := Day t.

End JsDate.

(** ** Arrays *)
Module JsArray.

Section Sort.
Context {A : Type} (cmp : A → A → Z).

(** [x] goes in front of the first element it does not compare greater
    than, so equal elements keep their order. *)
Fixpoint sort_insert (x : A) (l : list A) : list A :=
  match l with
  | [] => [x]
  | y :: l' =>
      if decide (cmp x y ≤ 0) then x :: y :: l' else y :: sort_insert x l'
  end.

(** [Array.prototype.sort(cmp)]: a stable sort (ECMAScript 2019). *)
Definition sort (l : list A) : list A := foldr sort_insert [] l.
End Sort.

Section SetOf.
Context {A : Type} `{EqDecision A}.

(** [Set.prototype.add]: a value already present keeps its place. *)
Definition Set_add (s : list A) (x : A) : list A :=
  if decide (x ∈ s) then s else s ++ [x].

(** [[...new Set(l)]]: the distinct values in order of first occurrence. *)
Definition newSet (l : list A) : list A := foldl Set_add [] l.
End SetOf.

(** [Array.prototype.find]. *)
Fixpoint find {A : Type} (f : A → bool) (l : list A) : option A :=
  match l with
  | [] => None
  | x :: l' => if f x then Some x else find f l'
  end.

(** [Array.prototype.slice(i, j)] for [0 <= i <= j]. *)
Definition slice {A : Type} (i j : nat) (l : list A) : list A :=
  take (j - i) (drop i l).

End JsArray.

(** ** Data points *)
Module Points.

(** The value of a [timestamp] field: a number of milliseconds, or the
    ISO-8601 text that [toISOString()] gives for an instant (one text per
    instant).  Either stands for a valid date, an integral time value in
    the range of [Date].  [Date] objects, which [===] tells apart by
    identity, have no representation here. *)
Inductive jsTime : Type :=
  | TNumber (ms : Z)
  | TString (ms : Z).

Global Instance jsTime_eq_dec : EqDecision jsTime.
Proof. solve_decision. Defined.

(** A data point; [count] is [None] where the code stores [null]. *)
Record DataPoint : Type := mkPoint { timestamp : jsTime; count : option Z }.

Global Instance DataPoint_eq_dec : EqDecision DataPoint.
Proof. solve_decision. Defined.

(** ToBoolean of a timestamp: the number 0 is falsy, a date text is not. *)
Definition truthy (t : jsTime) : bool :=
  match t with
  | TNumber 0 => false
  | _ => true
  end.

(** [new Date(t)], as a time value. *)
Definition newDate (t : jsTime) : Z :=
  match t with
  | TNumber ms => ms
  | TString ms => ms
  end.

Definition timeOf (p : DataPoint) : Z := newDate (timestamp p).

End Points.

(** ** charts.js *)
Module Charts.
Import JsDate JsArray Points.

(** What an array handed to [removeDuplicateDates] can hold. *)
Inductive rawItem : Type :=
  | ItemNull                      (* null or undefined *)
  | ItemNoTimestamp (c : option Z) (* timestamp undefined, null, NaN or '' *)
  | ItemPoint (p : DataPoint).

(** [if (!item || !item.timestamp) return;] *)
Definition usable (item : rawItem) : option DataPoint :=
  match item with
  | ItemPoint p => if truthy (timestamp p) then Some p else None
  | _ => None
  end.

(** First [forEach]: today's entries and the other ones. *)
Definition splitStep (todayUTC : Z)
    (acc : list DataPoint * list DataPoint) (item : rawItem)
    : list DataPoint * list DataPoint :=
  match usable item with
  | None => acc
  | Some p =>
      if decide (utcDateKey (timeOf p) = todayUTC)
      then (acc.1 ++ [p], acc.2)
      else (acc.1, acc.2 ++ [p])
  end.

Definition isMidnight (t : Z) : bool :=
  bool_decide (getUTCHours t = 0) &&
  bool_decide (getUTCMinutes t = 0) &&
  bool_decide (getUTCSeconds t = 0).

(** Second [forEach]: [(earliestToday, latestToday)]. *)
Definition todayStep (acc : option DataPoint * option DataPoint)
    (item : DataPoint) : option DataPoint * option DataPoint :=
  if isMidnight (timeOf item) then (Some item, acc.2)
  else
    match acc.2 with
    | None => (acc.1, Some item)
    | Some latest =>
        if decide (timeOf item > timeOf latest) then (acc.1, Some item)
        else acc
    end.

(** Week start of a time value: back to Sunday, then to 00:00:00.000. *)
Definition weekStart (t : Z) : Z :=
  startOfUTCDay (shiftUTCDate t (- getUTCDay t)).

Definition bucketKey (isWeekly : bool) (p : DataPoint) : Z :=
  if isWeekly then utcDateKey (weekStart (timeOf p))
  else utcDateKey (timeOf p).

(** [seen]: a [Map] keeps its keys in insertion order, and [set] on a key
    that is present replaces the value where it stands. *)
Fixpoint Map_get {V : Type} (m : list (Z * V)) (k : Z) : option V :=
  match m with
  | [] => None
  | (k', v) :: m' => if decide (k' = k) then Some v else Map_get m' k
  end.

Fixpoint Map_set {V : Type} (m : list (Z * V)) (k : Z) (v : V)
    : list (Z * V) :=
  match m with
  | [] => [(k, v)]
  | (k', v') :: m' =>
      if decide (k' = k) then (k, v) :: m' else (k', v') :: Map_set m' k v
  end.

Definition Map_values {V : Type} (m : list (Z * V)) : list V := m.*2.

(** Third [forEach]: the latest entry of each day or week. *)
Definition seenStep (isWeekly : bool) (seen : list (Z * DataPoint))
    (item : DataPoint) : list (Z * DataPoint) :=
  let key := bucketKey isWeekly item in
  match Map_get seen key with
  | None => Map_set seen key item
  | Some old =>
      if decide (timeOf item > timeOf old) then Map_set seen key item
      else seen
  end.

Definition pushIf {V : Type} (l : list V) (o : option V) : list V :=
  match o with
  | Some x => l ++ [x]
  | None => l
  end.

Definition byTime (a b : DataPoint) : Z := timeOf a - timeOf b.

(** [removeDuplicateDates(data, isWeekly)], with the clock reading [now]
    that [new Date()] returns.  [data = None] is a null or undefined
    argument. *)
Definition removeDuplicateDates (now : Z) (data : option (list rawItem))
    (isWeekly : bool) : list DataPoint :=
  match data with
  | None => []
  | Some [] => []
  | Some items =>
      let todayUTC := utcDateKey now in
      let '(todayEntries, otherEntries) :=
        foldl (splitStep todayUTC) ([], []) items in
      let '(earliestToday, latestToday) :=
        foldl todayStep (None, None) todayEntries in
      let seen := foldl (seenStep isWeekly) [] otherEntries in
      let result := Map_values seen in
      let result := pushIf result earliestToday in
      let result := pushIf result latestToday in
      sort byTime result
  end.

(** What [updateStandardCombinedChart] writes: the chart's labels, the two
    datasets, and the two entries of [historicalData]. *)
Record CombinedChart : Type := mkCombined {
  labels : list string;
  primaryValues : list (option Z);
  secondaryValues : list (option Z);
  primaryLabel : string;
  secondaryLabel : string;
  alignedPrimaryData : list DataPoint;
  alignedSecondaryData : list DataPoint
}.

Section Combined.
(** [formatDate] is imported from utils.js and [getProcessDisplayName]
    from processes.js; the chart code is independent of what they print. *)
Variable formatDate : Z → string.
Variable getProcessDisplayName : string → string.

Definition byDate (a b : jsTime) : Z := newDate a - newDate b.

(** [[...new Set(allTimestamps)].sort(...)] *)
Definition uniqueTimestamps (primaryData secondaryData : list DataPoint)
    : list jsTime :=
  let allTimestamps :=
    (timestamp <$> primaryData) ++ (timestamp <$> secondaryData) in
  sort byDate (newSet allTimestamps).

(** [data.find(d => d.timestamp === timestamp)] *)
Definition pointAt (data : list DataPoint) (t : jsTime) : option DataPoint :=
  find (λ d, bool_decide (timestamp d = t)) data.

(** [point ? point.count : null] *)
Definition valueAt (data : list DataPoint) (t : jsTime) : option Z :=
  match pointAt data t with
  | Some point => count point
  | None => None
  end.

(** [point || { timestamp, count: null }] *)
Definition alignedAt (data : list DataPoint) (t : jsTime) : DataPoint :=
  match pointAt data t with
  | Some point => point
  | None => mkPoint t None
  end.

Definition updateStandardCombinedChart (primaryProcess secondaryProcess : string)
    (primaryData secondaryData : list DataPoint) : CombinedChart :=
  let ts := uniqueTimestamps primaryData secondaryData in
  {| labels := (λ t, formatDate (newDate t)) <$> ts;
     primaryValues := valueAt primaryData <$> ts;
     secondaryValues := valueAt secondaryData <$> ts;
     primaryLabel := getProcessDisplayName primaryProcess;
     secondaryLabel := getProcessDisplayName secondaryProcess;
     alignedPrimaryData := alignedAt primaryData <$> ts;
     alignedSecondaryData := alignedAt secondaryData <$> ts |}.
End Combined.

End Charts.

(** ** api.js *)
Module Api.
Import JsDate JsArray Points.

(** *** The response cache

    [responseCache] maps a cache key to [{ data, timestamp }]. *)
Record CacheEntry (T : Type) : Type :=
  mkEntry { entry_data : T; entry_timestamp : Z }.
Arguments mkEntry {T} _ _.
Arguments entry_data {T} _.
Arguments entry_timestamp {T} _.

Definition minutes (n : Z) : Z := n * 60 * 1000.

Section Cache.
Context {T : Type}.

(** The read that opens every fetch function:
    [if (responseCache.has(cacheKey)) { const { data, timestamp } = ...;
        if (Date.now() - timestamp < ttl) return data; }] *)
Definition cacheLookup (ttl now : Z)
    (responseCache : gmap string (CacheEntry T)) (cacheKey : string)
    : option T :=
  match responseCache !! cacheKey with
  | Some e =>
      if decide (now - entry_timestamp e < ttl) then Some (entry_data e)
      else None
  | None => None
  end.

(** [responseCache.set(cacheKey, { data, timestamp: Date.now() })] *)
Definition cacheStore (cacheKey : string) (d : T) (now : Z)
    (responseCache : gmap string (CacheEntry T))
    : gmap string (CacheEntry T) :=
  <[cacheKey := mkEntry d now]> responseCache.

(** [clearCache()] *)
Definition clearCache (responseCache : gmap string (CacheEntry T))
    : gmap string (CacheEntry T) := ∅.

(** What [fetch] and [response.json()] come back with. *)
Inductive reply : Type :=
  | Rejected                 (* the promise rejects *)
  | NotOk (status : Z)       (* a response with [ok] false *)
  | Json (body : T).

(** [fetchNetworkInfo()]: [now] is the clock at the cache check, [later]
    the clock when the body is cached; [None] is the rethrown error. *)
Definition fetchNetworkInfo (now later : Z) (net : reply)
    (responseCache : gmap string (CacheEntry T))
    : option T * gmap string (CacheEntry T) :=
  let cacheKey := "network-info"%string in
  match cacheLookup (minutes 5) now responseCache cacheKey with
  | Some d => (Some d, responseCache)
  | None =>
      match net with
      | Json d => (Some d, cacheStore cacheKey d later responseCache)
      | _ => (None, responseCache)
      end
  end.
End Cache.
Arguments reply : clear implicits.

(** *** fetchProcessData *)
Record Period : Type :=
  mkPeriod { startHeight : Z; endHeight : Z; endTime : jsTime }.

(** How one period's sub-request ends. *)
Inductive outcome : Type :=
  | Threw                        (* generateQuery, fetch or json() rejects,
                                    or the body has no data.transactions *)
  | BadStatus (status : Z)       (* [!response.ok] *)
  | GraphQLErrors                (* [result.errors] is set *)
  | Transactions (n : option Z). (* [result.data.transactions.count] *)

Inductive event : Type :=
  | Submit (chunk : list Period)              (* Promise.all over a chunk *)
  | GraphQLErrorsLogged (processName : string)
  | FetchErrorLogged (processName : string) (period : nat)
  | Delay (ms : Z).                           (* setTimeout(resolve, ms) *)

Definition CHUNK_SIZE : nat := 5.

Definition quote : string := String (Ascii.ascii_of_nat 34) EmptyString.

(** [processName + '-' + JSON.stringify(periods.map(p => p.startHeight + '-' + p.endHeight))] *)
Definition processCacheKey (processName : string) (periods : list Period)
    : string :=
  let heights :=
    (λ p, quote +:+ pretty (startHeight p) +:+ "-" +:+ pretty (endHeight p)
            +:+ quote) <$> periods in
  processName +:+ "-[" +:+ String.concat "," heights +:+ "]".

Section FetchProcessData.
(** The network: [generateQuery] of processes.js followed by the GraphQL
    endpoint, for the request with the given number. *)
Variable respond : string → Period → Z → nat → outcome.

Variable processName : string.
Variable periods : list Period.
Variable currentHeight : Z.

(** The body of [chunk.map(async (period, index) => ...)] for the period
    number [n = i + index]: the point, and what is logged. *)
Definition subRequest (n : nat) (period : Period) : DataPoint * list event :=
  match respond processName period currentHeight n with
  | Transactions c => (mkPoint (endTime period) c, [])
  | GraphQLErrors =>
      (mkPoint (endTime period) (Some 0), [GraphQLErrorsLogged processName])
  | BadStatus _ | Threw =>
      (mkPoint (endTime period) (Some 0), [FetchErrorLogged processName n])
  end.

(** [for (let i = 0; i < periods.length; i += CHUNK_SIZE)], from index [i]
    on.  What the sub-requests of one chunk log is listed in the order of
    the chunk. *)
Fixpoint chunkLoop (fuel i : nat) (results : list DataPoint)
    (trace : list event) : option (list DataPoint * list event) :=
  if decide (i < length periods)%nat then
    match fuel with
    | O => None
    | S fuel' =>
        let chunk := slice i (i + CHUNK_SIZE) periods in
        let chunkResults := imap (λ index, subRequest (i + index)) chunk in
        let results := results ++ chunkResults.*1 in
        let trace := trace ++ Submit chunk :: concat chunkResults.*2 in
        let trace :=
          if decide (i + CHUNK_SIZE < length periods)%nat
          then trace ++ [Delay 100] else trace in
        chunkLoop fuel' (i + CHUNK_SIZE)%nat results trace
    end
  else Some (results, trace).

(** [fetchProcessData(processName, periods, currentHeight)]: the returned
    points, the cache afterwards and the events; [None] only if the loop
    were cut short. *)
Definition fetchProcessData (now later : Z)
    (responseCache : gmap string (CacheEntry (list DataPoint)))
    : option (list DataPoint * gmap string (CacheEntry (list DataPoint))
              * list event) :=
  let cacheKey := processCacheKey processName periods in
  match cacheLookup (minutes 10) now responseCache cacheKey with
  | Some d => Some (d, responseCache, [])
  | None =>
      match chunkLoop (length periods) 0 [] [] with
      | Some (results, trace) =>
          Some (results, cacheStore cacheKey results later responseCache,
                trace)
      | None => None
      end
  end.
End FetchProcessData.

(** *** The day-number adapter *)

(** A string is held as the bytes of its UTF-8 encoding. *)

(** A Number, as far as [parseInt] and the products of its results go: NaN,
    an infinity, or a double whose value is an integer (the two zeros are
    not told apart). *)
Inductive number : Type :=
  | NaN
  | Infinity (negative : bool)
  | Integer (z : Z).

(** The Number value of the integer [z]: the nearest double, a tie going to
    the even significand, and an infinity from 2^1024 on. *)
Definition roundToDouble (z : Z) : number :=
  let a := Z.abs z in
  if decide (a < 2 ^ 53) then Integer z
  else
    let e := Z.log2 a - 52 in
    let q := a / 2 ^ e in
    let r := a mod 2 ^ e in
    let half := 2 ^ (e - 1) in
    let q' :=
      if decide (r < half) then q
      else if decide (half < r) then q + 1
      else if Z.even q then q else q + 1 in
    if decide (q' * 2 ^ e < 2 ^ 1024) then Integer (Z.sgn z * (q' * 2 ^ e))
    else Infinity (bool_decide (z < 0)).

(** [n * c] for a positive integer constant [c]. *)
Definition times (n : number) (c : Z) : number :=
  match n with
  | NaN => NaN
  | Infinity negative => Infinity negative
  | Integer z => roundToDouble (z * c)
  end.

(** [new Date(n)] as a time value; [None] is an Invalid Date (TimeClip: NaN,
    an infinity, or more than 8.64e15 ms from the epoch). *)
Definition dateOfNumber (n : number) : option Z :=
  match n with
  | Integer t => if decide (Z.abs t ≤ 8640000000000000) then Some t else None
  | _ => None
  end.

(** The value of a digit or letter in [parseInt]. *)
Definition digitOf (c : Ascii.ascii) : option Z :=
  let n := Z.of_nat (Ascii.nat_of_ascii c) in
  if decide (48 ≤ n ≤ 57) then Some (n - 48)
  else if decide (97 ≤ n ≤ 122) then Some (n - 87)
  else if decide (65 ≤ n ≤ 90) then Some (n - 55)
  else None.

(** The longest prefix of digits below [radix]; [None] when there is none. *)
Fixpoint parseDigits (radix : Z) (s : string) (acc : option Z) : option Z :=
  match s with
  | EmptyString => acc
  | String c s' =>
      match digitOf c with
      | Some d =>
          if decide (d < radix)
          then parseDigits radix s' (Some (radix * default 0 acc + d))
          else acc
      | None => acc
      end
  end.

Definition byte (c : Ascii.ascii) : nat := Ascii.nat_of_ascii c.

(** The code points that [parseInt] skips in front (WhiteSpace and
    LineTerminator), by the length of their encoding.  Of one byte: TAB,
    LF, VT, FF, CR and SP. *)
Definition isWhiteSpace1 (c : Ascii.ascii) : bool :=
  let n := byte c in
  bool_decide (9 ≤ n ≤ 13)%nat || bool_decide (n = 32)%nat.

(** Of two bytes: U+00A0. *)
Definition isWhiteSpace2 (c1 c2 : Ascii.ascii) : bool :=
  bool_decide (byte c1 = 194 ∧ byte c2 = 160)%nat.

(** Of three bytes: U+1680, U+2000 to U+200A, U+2028, U+2029, U+202F,
    U+205F, U+3000 and U+FEFF. *)
Definition isWhiteSpace3 (c1 c2 c3 : Ascii.ascii) : bool :=
  let b1 := byte c1 in
  let b2 := byte c2 in
  let b3 := byte c3 in
  bool_decide (b1 = 225 ∧ b2 = 154 ∧ b3 = 128)%nat
  || bool_decide (b1 = 226 ∧ b2 = 128 ∧
                  (128 ≤ b3 ≤ 138 ∨ b3 = 168 ∨ b3 = 169 ∨ b3 = 175))%nat
  || bool_decide (b1 = 226 ∧ b2 = 129 ∧ b3 = 159)%nat
  || bool_decide (b1 = 227 ∧ b2 = 128 ∧ b3 = 128)%nat
  || bool_decide (b1 = 239 ∧ b2 = 187 ∧ b3 = 191)%nat.

(** The string without its leading white space (StrWhiteSpaceChar). *)
Fixpoint trimStart (s : string) : string :=
  match s with
  | String c1 s1 =>
      if isWhiteSpace1 c1 then trimStart s1
      else if bool_decide (192 ≤ byte c1)%nat then
        match s1 with
        | String c2 s2 =>
            if isWhiteSpace2 c1 c2 then trimStart s2
            else
              match s2 with
              | String c3 s3 =>
                  if isWhiteSpace3 c1 c2 c3 then trimStart s3 else s
              | EmptyString => s
              end
        | EmptyString => s
        end
      else s
  | EmptyString => s
  end.

(** After the sign: the mathematical value of the digits.  [radix] is
    [None] for a missing argument, which counts as 0; a radix other than 0
    outside 2 to 36 gives NaN; a [0x] prefix selects radix 16 when the
    radix is 0 or 16; [None] (NaN) when there is no digit. *)
Definition parseUnsigned (radix : option Z) (s : string) : option Z :=
  let R := default 0 radix in
  if decide (R ≠ 0 ∧ (R < 2 ∨ 36 < R)) then None
  else
    match bool_decide (R = 0 ∨ R = 16), s with
    | true, String "0"%char (String ("x" | "X")%char s') =>
        parseDigits 16 s' None
    | _, _ => parseDigits (if decide (R = 0) then 10 else R) s None
    end.

(** [parseInt(s)] ([radix = None]) and [parseInt(s, radix)] for a radix in
    the range of int32: the Number value of the signed digits. *)
Definition parseInt (s : string) (radix : option Z) : number :=
  let signed (negative : bool) (digits : string) : number :=
    match parseUnsigned radix digits with
    | Some mathInt => roundToDouble (if negative then - mathInt else mathInt)
    | None => NaN
    end in
  match trimStart s with
  | String "-"%char s' => signed true s'
  | String "+"%char s' => signed false s'
  | s' => signed false s'
  end.

Record Breakdown : Type :=
  mkBreakdown { Low : option Z; Medium : option Z; High : option Z }.

(** An element of [streakData]; the timestamp is a [Date]. *)
Record StreakDay : Type :=
  mkStreakDay { streakTime : Z; day : string; breakdowns : Breakdown }.

(** [const timestampMs = parseInt(day) * 86400000;] of fetchRuneRealmStats,
    as the time value of [new Date(timestampMs)]; [None] is an Invalid Date,
    on which the [timestamp.toISOString()] of the log line throws a
    RangeError. *)
Definition timestampMs (day : string) : option Z :=
  dateOfNumber (times (parseInt day None) 86400000).

(** [new Date(parseInt(day, 10) * 24 * 60 * 60 * 1000)] of
    updateRuneRealmChart; [None] is an Invalid Date, on which
    [timestamp.toISOString()] throws a RangeError. *)
Definition dayNumberDate (day : string) : option Z :=
  dateOfNumber
    (times (times (times (times (parseInt day (Some 10)) 24) 60) 60) 1000).

Definition orZero (v : option Z) : option Z :=
  match v with
  | None => Some 0
  | Some _ => v
  end.

(** The three [if (day.breakdowns.X === undefined) day.breakdowns.X = 0]. *)
Definition withDefaults (b : Breakdown) : Breakdown :=
  mkBreakdown (orZero (Low b)) (orZero (Medium b)) (orZero (High b)).

Definition byStreakTime (a b : StreakDay) : Z := streakTime a - streakTime b.

(** The transformation of [rawData.BreakdownByDay] in fetchRuneRealmStats,
    on the entries in [Object.entries] order.  A key whose date is invalid
    (it is not a number, or its day lies outside the range of [Date]) makes
    [timestamp.toISOString()] throw: [None]. *)
Definition streakData (entries : list (string * Breakdown))
    : option (list StreakDay) :=
  pushed ← mapM (λ e, (λ ms, mkStreakDay ms e.1 e.2) <$> timestampMs e.1)
             entries;
  let sorted := sort byStreakTime pushed in
  Some ((λ d, mkStreakDay (streakTime d) (day d) (withDefaults (breakdowns d)))
          <$> sorted).

End Api.

(** ** Vocabulary of the statements *)
Module Spec.
Import JsDate JsArray Points Charts Api.

(** The magnitude of the Number is at least [B], as that of an infinity
    is. *)
Definition atLeast (B : Z) (n : number) : Prop :=
  match n with
  | NaN => False
  | Infinity _ => True
  | Integer z => B ≤ Z.abs z
  end.

(** The elements of an input array that the first loop does not skip. *)
Definition usableItems (items : list rawItem) : list DataPoint :=
  omap usable items.

(** The point lies on the UTC day of the clock reading [now]. *)
Definition isToday (now : Z) (p : DataPoint) : Prop :=
  utcDateKey (timeOf p) = utcDateKey now.

Global Instance isToday_dec now p : Decision (isToday now p).
Proof. unfold isToday. apply _. Defined.

(** The point lies in the first second of its UTC day. *)
Definition atMidnight (p : DataPoint) : Prop := isMidnight (timeOf p) = true.

Global Instance atMidnight_dec p : Decision (atMidnight p).
Proof. unfold atMidnight. apply _. Defined.

(** No point of [l] is later than [p]. *)
Definition latestIn (p : DataPoint) (l : list DataPoint) : Prop :=
  p ∈ l ∧ ∀ q, q ∈ l → timeOf q ≤ timeOf p.

(** The rule [!latest || item > latest] of both loops, from [acc] on. *)
Definition keepLater (acc : option DataPoint) (item : DataPoint)
    : option DataPoint :=
  match acc with
  | None => Some item
  | Some old => if decide (timeOf item > timeOf old) then Some item else acc
  end.

(** The non-today points of bucket [k]. *)
Definition inBucket (now : Z) (isWeekly : bool) (k : Z) (p : DataPoint)
    : Prop :=
  ¬ isToday now p ∧ bucketKey isWeekly p = k.

Global Instance inBucket_dec now w k p : Decision (inBucket now w k p).
Proof. unfold inBucket. apply _. Defined.

(** The intermediate values of [removeDuplicateDates]. *)
Definition todayEntries (now : Z) (items : list rawItem) : list DataPoint :=
  filter (isToday now) (usableItems items).

Definition otherEntries (now : Z) (items : list rawItem) : list DataPoint :=
  filter (λ p, ¬ isToday now p) (usableItems items).

Definition earliestToday (now : Z) (items : list rawItem) : option DataPoint :=
  last (filter atMidnight (todayEntries now items)).

Definition latestToday (now : Z) (items : list rawItem) : option DataPoint :=
  foldl keepLater None (filter (λ p, ¬ atMidnight p) (todayEntries now items)).

Definition seenOf (now : Z) (items : list rawItem) (isWeekly : bool)
    : list (Z * DataPoint) :=
  foldl (seenStep isWeekly) [] (otherEntries now items).

(** Every entry of [seen] is filed under the key of its value, and no key
    twice. *)
Definition seenWF (isWeekly : bool) (m : list (Z * DataPoint)) : Prop :=
  NoDup m.*1 ∧ Forall (λ kv, bucketKey isWeekly kv.2 = kv.1) m.

Definition unsorted (now : Z) (items : list rawItem) (isWeekly : bool)
    : list DataPoint :=
  Map_values (seenOf now items isWeekly)
    ++ option_list (earliestToday now items)
    ++ option_list (latestToday now items).

(** *** Chunked fetching *)

(** [k] chunks of at most [CHUNK_SIZE] elements, front to back. *)
Fixpoint chunksN {A : Type} (k : nat) (l : list A) : list (list A) :=
  match k with
  | O => []
  | S k' => take CHUNK_SIZE l :: chunksN k' (drop CHUNK_SIZE l)
  end.

(** ceil(n / 5) chunks of size 5, the last one possibly smaller. *)
Definition chunked {A : Type} (l : list A) : list (list A) :=
  chunksN ((length l + 4) / CHUNK_SIZE)%nat l.

(** The chunks submitted in a trace, in order. *)
Definition submitted (trace : list event) : list (list Period) :=
  omap (λ e, match e with Submit c => Some c | _ => None end) trace.

Definition isSchedule (e : event) : bool :=
  match e with
  | Submit _ | Delay _ => true
  | _ => false
  end.

Definition isDelay (e : event) : bool :=
  match e with
  | Delay _ => true
  | _ => false
  end.

(** Chunk after chunk, 100 ms between two of them and none at the end. *)
Fixpoint schedule (chunks : list (list Period)) : list event :=
  match chunks with
  | [] => []
  | c :: rest =>
      Submit c :: match rest with
                  | [] => []
                  | _ :: _ => Delay 100 :: schedule rest
                  end
  end.

(** The events of the chunks [chunks], the first of which starts at period
    number [i]: each chunk is submitted, its failures are logged, and a
    delay follows unless it is the last one. *)
Fixpoint traceOf (log : nat → Period → list event) (i : nat)
    (chunks : list (list Period)) : list event :=
  match chunks with
  | [] => []
  | c :: rest =>
      Submit c :: concat (imap (λ index, log (i + index)%nat) c)
        ++ match rest with
           | [] => []
           | _ :: _ => [Delay 100]
           end
        ++ traceOf log (i + CHUNK_SIZE)%nat rest
  end.

End Spec.

(** ** Sample data

    The clock reads 15:00 UTC on day 20226 (18 May 2025). *)
Module Sample.
Import JsDate Points Charts Api.

Definition day : Z := 20226 * msPerDay.
Definition clock : Z := day + 15 * msPerHour.
Definition at_ (t c : Z) : DataPoint := mkPoint (TNumber t) (Some c).

(** Twelve periods; the requests number 3 and 7 fail. *)
Definition period (n : Z) : Period := mkPeriod n (n + 1) (TNumber (n * 1000)).

Definition twelve : list Period :=
  period <$> [1; 2; 3; 4; 5; 6; 7; 8; 9; 10; 11; 12].

Definition network (name : string) (p : Period) (height : Z) (n : nat)
    : outcome :=
  if decide (n = 3)%nat then BadStatus 500
  else if decide (n = 7)%nat then GraphQLErrors
  else Transactions (Some (startHeight p)).

End Sample.

(** ** api.js: the other fetch functions *)
Module Fetchers.
Import JsDate JsArray Points Charts Api.

(** What [dryrun] resolves to, [{ Messages: [{ Tags: [{ name, value }],
    Data }] }]; [None] is a part that is missing (or the whole answer, for a
    null response). *)
Record Tag : Type := mkTag { tag_name : string; tag_value : string }.

Record Message : Type :=
  mkMessage { Tags : option (list Tag); Data : option string }.

Record DryrunResult : Type := mkDryrun { Messages : option (list Message) }.

(** How an awaited promise settles. *)
Inductive settled (T : Type) : Type :=
  | Rejects
  | Resolves (v : T).
Arguments Rejects {T}.
Arguments Resolves {T} _.

(** [response.Messages[0]], when the response and its messages exist. *)
Definition firstMessage (response : option DryrunResult) : option Message :=
  r ← response; messages ← Messages r; head messages.

(** [tags.find(tag => tag.name === name)] *)
Definition findTag (name : string) (tags : list Tag) : option Tag :=
  find (λ tag, bool_decide (tag_name tag = name)) tags.

(** A block of the [DailyBlocks] tag; [date] is the time value of
    [new Date(block.date)]. *)
Record Block : Type := mkBlock { date : Z; blocks : Z }.

Definition byDateDescending (a b : Block) : Z := date b - date a.

Section BlockHistory.
(** [JSON.parse] on the text of the tag; [None] when it throws. *)
Variable JSON_parse : string → option (list Block).

(** [fetchBlockHistory()]: the clock is [now] at the cache check and [later]
    when the result is cached; [None] is the error that is logged and
    thrown again. *)
Definition fetchBlockHistory (now later : Z)
    (net : settled (option DryrunResult))
    (responseCache : gmap string (CacheEntry (list Block)))
    : option (list Block) * gmap string (CacheEntry (list Block)) :=
  let cacheKey := "block-history"%string in
  match cacheLookup (minutes 15) now responseCache cacheKey with
  | Some d => (Some d, responseCache)
  | None =>
      match net with
      | Rejects => (None, responseCache)
      | Resolves blockHistoryResponse =>
          (* !response || !response.Messages || !response.Messages[0]
             || !response.Messages[0].Tags *)
          match firstMessage blockHistoryResponse ≫= Tags with
          | None => (None, responseCache)
          | Some tags =>
              match findTag "DailyBlocks" tags with
              | None => (None, responseCache)
              | Some dailyBlocksTag =>
                  match JSON_parse (tag_value dailyBlocksTag) with
                  | None => (None, responseCache)
                  | Some blockData =>
                      let sortedData := sort byDateDescending blockData in
                      (Some sortedData,
                       cacheStore cacheKey sortedData later responseCache)
                  end
              end
          end
      end
  end.
End BlockHistory.

Section SupplyHistory.
(** The parsed [DailySupply] tag, whatever it holds. *)
Context {S : Type}.
Variable JSON_parse : string → option S.

Record SupplyHistory : Type := mkSupplyHistory { wAR : S }.

(** [fetchSupplyHistory()]: nothing is checked, so a missing part of the
    answer is a TypeError; every error is thrown again. *)
Definition fetchSupplyHistory (now later : Z)
    (net : settled (option DryrunResult))
    (responseCache : gmap string (CacheEntry SupplyHistory))
    : option SupplyHistory * gmap string (CacheEntry SupplyHistory) :=
  let cacheKey := "supply-history"%string in
  match cacheLookup (minutes 30) now responseCache cacheKey with
  | Some d => (Some d, responseCache)
  | None =>
      match net with
      | Rejects => (None, responseCache)
      | Resolves wARResponse =>
          match message ← firstMessage wARResponse; tags ← Tags message;
                findTag "DailySupply" tags with
          | None => (None, responseCache)
          | Some wARSupplyTag =>
              match JSON_parse (tag_value wARSupplyTag) with
              | None => (None, responseCache)
              | Some wARSupplyData =>
                  let supplyData := mkSupplyHistory wARSupplyData in
                  (Some supplyData,
                   cacheStore cacheKey supplyData later responseCache)
              end
          end
      end
  end.
End SupplyHistory.
Arguments SupplyHistory : clear implicits.

(** The parsed [Data] of the Rune Realm answer: [BreakdownByDay] with its
    entries in [Object.entries] order, or without it. *)
Record RawData : Type :=
  mkRawData { BreakdownByDay : option (list (string * Breakdown)) }.

Section RuneRealmStats.
Variable JSON_parse : string → option RawData.

(** [fetchRuneRealmStats()] *)
Definition fetchRuneRealmStats (now later : Z)
    (net : settled (option DryrunResult))
    (responseCache : gmap string (CacheEntry (list StreakDay)))
    : option (list StreakDay) * gmap string (CacheEntry (list StreakDay)) :=
  let cacheKey := "runerealm-stats"%string in
  match cacheLookup (minutes 20) now responseCache cacheKey with
  | Some d => (Some d, responseCache)
  | None =>
      match net with
      | Rejects => (None, responseCache)
      | Resolves response =>
          (* !response || !response.Messages || !response.Messages[0] *)
          match firstMessage response with
          | None => (None, responseCache)
          | Some message =>
              match dataStr ← Data message; rawData ← JSON_parse dataStr;
                    BreakdownByDay rawData with
              | None => (None, responseCache)
              | Some entries =>
                  match streakData entries with
                  | None => (None, responseCache)
                  | Some data =>
                      (Some data, cacheStore cacheKey data later responseCache)
                  end
              end
          end
      end
  end.
End RuneRealmStats.

(** The parsed [TodayStats] tag: the time value of [new Date(Date)], if it
    is a valid date, and [ActiveUsersCount]. *)
Record TodayStats : Type :=
  mkTodayStats { todayDate : option Z; todayCount : option Z }.

Section StargridStats.
(** [JSON.parse] of the [DailyStats] tag as [Object.entries] sees it: the
    keys, and [ActiveUsersCount] of each value. *)
Variable JSON_parse_daily : string → option (list (string * option Z)).
Variable JSON_parse_today : string → option TodayStats.
(** The time value of [new Date(Number(ts))]; [None] for an invalid date. *)
Variable Number : string → option Z.

(** [Object.entries(raw).map(([ts, d]) => ({ timestamp:
    new Date(Number(ts)).toISOString(), count: d.ActiveUsersCount }))];
    [toISOString] throws on an invalid date. *)
Definition dailyPoints (raw : list (string * option Z))
    : option (list DataPoint) :=
  mapM (λ e, (λ ms, mkPoint (TString ms) e.2) <$> Number e.1) raw.

(** [fetchStargridStats()] *)
Definition fetchStargridStats (now later : Z)
    (net : settled (option DryrunResult))
    (responseCache : gmap string (CacheEntry (list DataPoint)))
    : option (list DataPoint) * gmap string (CacheEntry (list DataPoint)) :=
  let cacheKey := "stargrid-history"%string in
  match cacheLookup (minutes 15) now responseCache cacheKey with
  | Some d => (Some d, responseCache)
  | None =>
      match net with
      | Rejects => (None, responseCache)
      | Resolves response =>
          (* response.Messages[0]?.Tags.find(...) *)
          match response ≫= Messages with
          | None => (None, responseCache)
          | Some messages =>
              let tagNamed name :=
                match head messages with
                | None => Some None
                | Some message => findTag name <$> Tags message
                end in
              match tagNamed "DailyStats"%string with
              | None | Some None => (None, responseCache)
              | Some (Some statsTag) =>
                  match JSON_parse_daily (tag_value statsTag)
                        ≫= dailyPoints with
                  | None => (None, responseCache)
                  | Some data =>
                      let pushed :=
                        match tagNamed "TodayStats"%string with
                        | Some (Some todayTag) =>
                            todayData ← JSON_parse_today (tag_value todayTag);
                            ms ← todayDate todayData;
                            Some (data ++ [mkPoint (TString ms)
                                             (todayCount todayData)])
                        | _ => Some data
                        end in
                      match pushed with
                      | None => (None, responseCache)
                      | Some data =>
                          let data := sort byTime data in
                          (Some data,
                           cacheStore cacheKey data later responseCache)
                      end
                  end
              end
          end
      end
  end.
End StargridStats.

End Fetchers.

(** ** charts.js: the charts and the stored histories *)
Module Dashboard.
Import JsDate JsArray Points Charts Api.

(** A Chart.js instance, as far as the code writes to it: [chart.data.labels]
    and, for each dataset, its [label] and [data]. *)
Record Dataset : Type := mkDataset { ds_label : string; ds_data : list (option Z) }.

Record Chart : Type :=
  mkChart { chart_labels : list string; chart_datasets : list Dataset }.

(** The two module-level objects [charts] and [historicalData].  The
    histories of this model hold points with a [timestamp] and a [count]. *)
Record State : Type :=
  mkState { charts : gmap string Chart;
            historicalData : gmap string (list DataPoint) }.

(** A call returns, or throws with the writes made until then. *)
Inductive completion : Type :=
  | Returned (s : State)
  | Thrown (s : State).

Definition stateOf (c : completion) : State :=
  match c with
  | Returned s => s
  | Thrown s => s
  end.

Definition setHistory (processName : string) (data : list DataPoint)
    (s : State) : State :=
  mkState (charts s) (<[processName := data]> (historicalData s)).

Definition setChart (processName : string) (chart : Chart) (s : State)
    : State :=
  mkState (<[processName := chart]> (charts s)) (historicalData s).

(** [chart.data.datasets[i].data = values]; a TypeError ([None]) when the
    chart has no dataset [i]. *)
Definition setData (i : nat) (values : list (option Z)) (chart : Chart)
    : option Chart :=
  ds ← chart_datasets chart !! i;
  Some (mkChart (chart_labels chart)
          (<[i := mkDataset (ds_label ds) values]> (chart_datasets chart))).

(** [chart.data.datasets[i].label = text] *)
Definition setLabel (i : nat) (text : string) (chart : Chart) : option Chart :=
  ds ← chart_datasets chart !! i;
  Some (mkChart (chart_labels chart)
          (<[i := mkDataset text (ds_data ds)]> (chart_datasets chart))).

(** [chart.data.labels = labels] *)
Definition setLabels (labels : list string) (chart : Chart) : Chart :=
  mkChart labels (chart_datasets chart).

(** [getChart(processName)]: [charts[processName] || null] *)
Definition getChart (processName : string) (s : State) : option Chart :=
  charts s !! processName.

(** [s.includes(needle)] *)
Fixpoint includes (needle s : string) : bool :=
  if String.prefix needle s then true
  else
    match s with
    | EmptyString => false
    | String _ s' => includes needle s'
    end.

(** A point of the supply history. *)
Record SupplyPoint : Type :=
  mkSupplyPoint { supplyTime : jsTime; wARSupply : option Z }.

Definition bySupplyTime (a b : SupplyPoint) : Z :=
  newDate (supplyTime a) - newDate (supplyTime b).

Section Updates.
(** Imported from utils.js and processes.js.  [filterDataByTimeRange] reads
    the [timestamp] of the elements, which the accessor stands for. *)
Variable formatDate : Z → string.
Variable formatDateUTCWithLocalTime : Z → string.
Variable filterDataByTimeRange :
  ∀ A : Type, (A → jsTime) → list A → string → list A.
Variable getProcessDisplayName : string → string.

(** [updateStandardChart(processName, dataPoints)] *)
Definition updateStandardChart (processName : string)
    (dataPoints : list DataPoint) (s : State) : completion :=
  match charts s !! processName with
  | None => Returned s
  | Some chart =>
      let sortedData := sort byTime dataPoints in
      let s := setHistory processName sortedData s in
      let labels :=
        (λ d, if bool_decide (processName = "stargrid"%string)
              then formatDateUTCWithLocalTime (timeOf d)
              else formatDate (timeOf d)) <$> sortedData in
      let values := count <$> sortedData in
      let chart := setLabels labels chart in
      match setData 0 values chart
            ≫= setLabel 0 (getProcessDisplayName processName) with
      | Some chart' => Returned (setChart processName chart' s)
      | None => Thrown (setChart processName chart s)
      end
  end.

(** The writes of [updateStandardCombinedChart], in the order of the
    source, on the chart of the primary process. *)
Definition commitCombined (chart : Chart)
    (primaryProcess secondaryProcess : string) (c : CombinedChart)
    (s : State) : completion :=
  let s := setHistory primaryProcess (alignedPrimaryData c) s in
  let s := setHistory secondaryProcess (alignedSecondaryData c) s in
  let chart := setLabels (labels c) chart in
  match setData 0 (primaryValues c) chart with
  | None => Thrown (setChart primaryProcess chart s)
  | Some chart0 =>
      match chart1 ← setData 1 (secondaryValues c) chart0;
            chart2 ← setLabel 0 (primaryLabel c) chart1;
            setLabel 1 (secondaryLabel c) chart2 with
      | Some chart' => Returned (setChart primaryProcess chart' s)
      | None => Thrown (setChart primaryProcess chart0 s)
      end
  end.

(** [updateCombinedChart(primaryProcess, secondaryProcess, timeRange)] *)
Definition updateCombinedChart (primaryProcess secondaryProcess : string)
    (timeRange : string) (s : State) : completion :=
  match charts s !! primaryProcess with
  | None => Returned s
  | Some chart =>
      let primaryData := default [] (historicalData s !! primaryProcess) in
      let secondaryData := default [] (historicalData s !! secondaryProcess) in
      if bool_decide (length primaryData = 0%nat)
         && bool_decide (length secondaryData = 0%nat)
      then Returned s
      else
        let filteredPrimaryData :=
          filterDataByTimeRange _ timestamp primaryData timeRange in
        let filteredSecondaryData :=
          filterDataByTimeRange _ timestamp secondaryData timeRange in
        commitCombined chart primaryProcess secondaryProcess
          (updateStandardCombinedChart formatDate getProcessDisplayName
             primaryProcess secondaryProcess
             filteredPrimaryData filteredSecondaryData) s
  end.

(** [updateSupplyChart(supplyData, timeRange)]; [None] is a null or
    undefined argument. *)
Definition updateSupplyChart (supplyData : option (list SupplyPoint))
    (timeRange : string) (s : State) : completion :=
  match charts s !! "wARTotalSupply"%string with
  | None => Returned s
  | Some chart =>
      match supplyData with
      | None | Some [] => Returned s
      | Some supplyData =>
          let filteredData :=
            filterDataByTimeRange _ supplyTime supplyData timeRange in
          let sortedData := sort bySupplyTime filteredData in
          let labels := (λ d, formatDate (newDate (supplyTime d))) <$> sortedData in
          let values := wARSupply <$> sortedData in
          let chart := setLabels labels chart in
          match setData 0 values chart ≫= setLabel 0 "wAR Total Supply" with
          | Some chart' => Returned (setChart "wARTotalSupply" chart' s)
          | None => Thrown (setChart "wARTotalSupply" chart s)
          end
      end
  end.

(** The first half of [updateChartTimeRange]: the history, sorted and then
    rid of duplicate dates, at the clock reading [now]. *)
Definition cleanedHistory (now : Z) (processName : string) (s : State)
    : list DataPoint :=
  let data := default [] (historicalData s !! processName) in
  let data := sort byTime data in
  removeDuplicateDates now (Some (ItemPoint <$> data))
    (includes "weekly" processName).

(** [updateChartTimeRange(processName, timeRange)].  A point of this model's
    histories has no [wARSupply], which the supply chart reads as
    undefined. *)
Definition updateChartTimeRange (now : Z) (processName timeRange : string)
    (s : State) : completion :=
  let filteredData := cleanedHistory now processName s in
  let s := setHistory processName filteredData s in
  if bool_decide (processName = "wUSDCTransfer"%string) then
    updateCombinedChart "wUSDCTransfer" "USDATransfer" timeRange s
  else if bool_decide (processName = "wARTotalSupply"%string) then
    updateSupplyChart
      ((λ data : list DataPoint,
          (λ p, mkSupplyPoint (timestamp p) None) <$> data) <$>
         (historicalData s !! processName))
      timeRange s
  else
    let filteredByTimeRange :=
      filterDataByTimeRange _ timestamp filteredData timeRange in
    updateStandardChart processName filteredByTimeRange s.
End Updates.

(** The chart part of [updateRuneRealmChart]: what it writes to the
    labels and the five datasets, and [scales.x.max]. *)
Record RuneRealmView : Type := mkRuneRealmView {
  rr_labels : list string;
  rr_dummy : list Z;
  rr_low : list Z;
  rr_medium : list Z;
  rr_high : list Z;
  rr_total : list Z;
  rr_xmax : Z
}.

(** [value !== undefined ? value : 0] *)
Definition orDefault (v : option Z) : Z := default 0 v.

Section RuneRealm.
(** [filterDataByTimeRange] of utils.js, on the Rune Realm data. *)
Variable filterDataByTimeRange : list StreakDay → string → list StreakDay.
(** [`${date.toLocaleString('default', { month: 'short' })} ${date.getDate()}`],
    which depends on the locale and the time zone of the browser. *)
Variable monthAndDay : Z → string.

(** The data shown: all of it when there are at most three points or the
    time range holds none of them. *)
Definition shownStreaks (runeRealmData : list StreakDay) (timeRange : string)
    : list StreakDay :=
  let sortedData := sort byStreakTime runeRealmData in
  if decide (3 < length sortedData)%nat then
    let filtered := filterDataByTimeRange sortedData timeRange in
    if decide (0 < length filtered)%nat then filtered else sortedData
  else sortedData.

Definition runeRealmView (runeRealmData : list StreakDay)
    (timeRange : string) : RuneRealmView :=
  let filteredData := shownStreaks runeRealmData timeRange in
  let labels := (λ d, monthAndDay (streakTime d)) <$> filteredData in
  let lowData := (λ d, orDefault (Low (breakdowns d))) <$> filteredData in
  let mediumData := (λ d, orDefault (Medium (breakdowns d))) <$> filteredData in
  let highData := (λ d, orDefault (High (breakdowns d))) <$> filteredData in
  let totalData :=
    (λ d, orDefault (Low (breakdowns d)) + orDefault (Medium (breakdowns d))
          + orDefault (High (breakdowns d))) <$> filteredData in
  {| rr_labels := labels;
     rr_dummy := replicate (length labels) 0;
     rr_low := lowData;
     rr_medium := mediumData;
     rr_high := highData;
     rr_total := totalData;
     rr_xmax := Z.of_nat (length labels) - 1 |}.
End RuneRealm.

(** An element of [formattedData] in the earlier updateRuneRealmChart. *)
Record StreakPoint : Type := mkStreakPoint {
  sp_timestamp : jsTime;
  sp_day : Z;
  sp_Low : Z;
  sp_Medium : Z;
  sp_High : Z;
  sp_Total : Z
}.

Definition byStreakPoint (a b : StreakPoint) : Z :=
  newDate (sp_timestamp a) - newDate (sp_timestamp b).

(** One entry of [Object.entries(historyData)]: [stats.X || 0] for the
    three categories and their sum; [None] when the date is invalid (the key
    is not a number, or its day lies outside the range of [Date]) and
    [toISOString] throws.  The day number of a valid date is an integer. *)
Definition formatEntry (e : string * Breakdown) : option StreakPoint :=
  let dayNumber := parseInt e.1 (Some 10) in
  timestamp ← dayNumberDate e.1;
  let total :=
    orDefault (Low e.2) + orDefault (Medium e.2) + orDefault (High e.2) in
  match dayNumber with
  | Integer dayNumber =>
      Some (mkStreakPoint (TString timestamp) dayNumber
              (orDefault (Low e.2)) (orDefault (Medium e.2))
              (orDefault (High e.2)) total)
  | _ => None
  end.

(** [formattedData], sorted by timestamp. *)
Definition formattedData (entries : list (string * Breakdown))
    : option (list StreakPoint) :=
  sort byStreakPoint <$> mapM formatEntry entries.

End Dashboard.

(** ** Vocabulary of the further statements *)
Module Terms.
Import JsDate JsArray Points Charts Api.

(** What a fetch function leaves behind: the data it returns is in the
    cache under its key, and a call that throws has changed nothing. *)
Definition coherent {T : Type} (key : string)
    (cache : gmap string (CacheEntry T))
    (r : option T * gmap string (CacheEntry T)) : Prop :=
  match r.1 with
  | Some d => ∃ e, r.2 !! key = Some e ∧ entry_data e = d
  | None => r.2 = cache
  end.

(** The start and end heights of the periods, all that the cache key of
    fetchProcessData is made of besides the process name. *)
Definition heights (periods : list Period) : list (Z * Z) :=
  (λ p, (startHeight p, endHeight p)) <$> periods.

(** The key reads, by [parseInt(key)], as the number of a day that a [Date]
    can hold. *)
Definition readsAsDay (key : string) : Prop :=
  ∃ k, parseInt key None = Integer k ∧ Z.abs k ≤ 100000000.

(** The timestamp is an ISO text. *)
Definition isoStamped (p : DataPoint) : Prop := ∃ ms, timestamp p = TString ms.

End Terms.

(** ** More sample data *)
Module Cases.
Import JsDate JsArray Points Charts Api Fetchers Dashboard.

Definition parseBlocks (text : string) : option (list Block) :=
  if String.eqb text "blocks"
  then Some [mkBlock 1000 10; mkBlock 3000 30; mkBlock 2000 20]
  else None.

Definition answer (name text : string) : settled (option DryrunResult) :=
  Resolves (Some (mkDryrun (Some [mkMessage (Some [mkTag name text]) None]))).

Definition parseDaily (text : string) : option (list (string * option Z)) :=
  Some [("86400000"%string, Some 4); ("0"%string, Some 2)].

Definition parseToday (text : string) : option TodayStats := None.

Definition numberOf (text : string) : option Z :=
  dateOfNumber (parseInt text (Some 10)).

Definition breakdownEntries : list (string * Breakdown) :=
  [("20226"%string, mkBreakdown None (Some 3) None);
   ("20225"%string, mkBreakdown (Some 1) (Some 3) None)].

(** The same twelve periods with other end times. *)
Definition twelveLater : list Period :=
  (λ p, mkPeriod (startHeight p) (endHeight p) (TNumber 7)) <$> Sample.twelve.

(** A time range filter that keeps everything. *)
Definition keepAll (A : Type) (time : A → jsTime) (l : list A)
    (range : string) : list A := l.

Definition emptyChart (n : nat) : Chart :=
  mkChart [] (replicate n (mkDataset "" [])).

(** Charts for two processes; today's history of wARTransfer holds a point
    at 00:00:00.000, one at 00:00:00.500 and one at 14:00. *)
Definition dashboard : State :=
  mkState
    (<["wUSDCTransfer"%string := emptyChart 2]>
       (<["wARTransfer"%string := emptyChart 1]> ∅))
    (<["wUSDCTransfer"%string := [Sample.at_ 2000 5]]>
       (<["USDATransfer"%string := [Sample.at_ 1000 3]]>
          (<["wARTransfer"%string :=
               [Sample.at_ (Sample.day + 14 * msPerHour) 2;
                Sample.at_ (Sample.day + 500) 7;
                Sample.at_ Sample.day 1]]> ∅))).

Definition streaks : list StreakDay :=
  [mkStreakDay 2000 "2" (mkBreakdown (Some 1) None (Some 4));
   mkStreakDay 1000 "1" (mkBreakdown None (Some 2) None)].

End Cases.

(** ** Facts about the built-ins *)
Import JsDate JsArray Points Charts Api Spec.

Section SortFacts.
Context {A : Type} (key : A → Z) (cmp : A → A → Z).
Hypothesis cmp_key : ∀ a b, cmp a b = key a - key b.

Let le_key (a b : A) : Prop := key a ≤ key b.
Let lt_key (a b : A) : Prop := key a < key b.

Lemma sort_insert_perm x l : sort_insert cmp x l ≡ₚ x :: l.
Proof.
  induction l as [|y l IH]; simpl; [done|].
  case_decide; [done|]. rewrite IH. apply Permutation_swap.
Qed.

Lemma sort_perm l : sort cmp l ≡ₚ l.
Proof.
  induction l as [|x l IH]; simpl; [done|].
  rewrite sort_insert_perm. by rewrite IH.
Qed.

Lemma sort_insert_sorted x l :
  StronglySorted le_key l → StronglySorted le_key (sort_insert cmp x l).
Proof.
  induction 1 as [|y l Hl IH Hy]; simpl.
  - repeat constructor.
  - case_decide as Hc; rewrite cmp_key in Hc.
    + constructor; [by constructor|].
      constructor; [unfold le_key; lia|].
      eapply Forall_impl; [exact Hy|]. unfold le_key. intros; lia.
    + constructor; [done|].
      rewrite sort_insert_perm. constructor; [unfold le_key; lia|done].
Qed.

Lemma sort_sorted l : StronglySorted le_key (sort cmp l).
Proof.
  induction l as [|x l IH]; simpl; [constructor|].
  by apply sort_insert_sorted.
Qed.

Lemma sorted_le_lt l :
  StronglySorted le_key l → NoDup (key <$> l) → StronglySorted lt_key l.
Proof.
  induction 1 as [|x l Hl IH Hx]; [constructor|].
  rewrite fmap_cons, NoDup_cons. intros [Hnin Hnd].
  constructor; [by apply IH|].
  rewrite Forall_forall in Hx |- *. intros y Hy.
  assert (key x ≠ key y).
  { intros Heq. apply Hnin. rewrite Heq. by apply list_elem_of_fmap_2. }
  specialize (Hx y Hy). unfold le_key, lt_key in *. lia.
Qed.

Lemma sorted_lt_unique l1 l2 :
  StronglySorted lt_key l1 → StronglySorted lt_key l2 → l1 ≡ₚ l2 → l1 = l2.
Proof.
  apply StronglySorted_unique_strong.
  unfold lt_key. intros; lia.
Qed.

Lemma sort_strict l :
  NoDup (key <$> l) → StronglySorted lt_key (sort cmp l).
Proof.
  intros Hnd. apply sorted_le_lt; [apply sort_sorted|].
  by rewrite sort_perm.
Qed.

(** With pairwise distinct keys the result depends on the elements only. *)
Lemma sort_unique l1 l2 :
  l1 ≡ₚ l2 → NoDup (key <$> l1) → sort cmp l1 = sort cmp l2.
Proof.
  intros Hp Hnd. apply sorted_lt_unique.
  - by apply sort_strict.
  - apply sort_strict. by rewrite <- Hp.
  - by rewrite !sort_perm.
Qed.

Lemma sort_sorted_id l : StronglySorted lt_key l → sort cmp l = l.
Proof.
  intros Hs. apply sorted_lt_unique; [|done|apply sort_perm].
  apply sorted_le_lt; [apply sort_sorted|].
  rewrite sort_perm. clear -Hs.
  induction Hs as [|x l Hl IH Hx]; [constructor|].
  rewrite fmap_cons. constructor; [|done].
  rewrite list_elem_of_fmap. intros (y & Heq & Hy).
  rewrite Forall_forall in Hx. specialize (Hx y Hy).
  unfold lt_key in Hx. lia.
Qed.
End SortFacts.

Section DateFacts.
Lemma isMidnight_spec t : isMidnight t = true ↔ TimeWithinDay t < 1000.
Proof.
  unfold isMidnight, TimeWithinDay, getUTCHours, getUTCMinutes,
    getUTCSeconds, msPerDay, msPerHour, msPerMinute, msPerSecond.
  rewrite !andb_true_iff, !bool_decide_eq_true.
  split; [intros [[? ?] ?]|intros ?; repeat split];
    Z.div_mod_to_equations; lia.
Qed.

Lemma midnight_first a b :
  Day a = Day b → isMidnight a = true → isMidnight b ≠ true → a < b.
Proof.
  rewrite !isMidnight_spec. unfold Day, TimeWithinDay, msPerDay.
  intros; Z.div_mod_to_equations; lia.
Qed.

Lemma weekStart_key t : utcDateKey (weekStart t) = Day t - getUTCDay t.
Proof.
  unfold utcDateKey, weekStart, startOfUTCDay, shiftUTCDate, getUTCDay,
    Day, msPerDay.
  Z.div_mod_to_equations; lia.
Qed.

Lemma bucketKey_time w a b : timeOf a = timeOf b → bucketKey w a = bucketKey w b.
Proof. unfold bucketKey. by intros ->. Qed.

Lemma isToday_time now a b : timeOf a = timeOf b → isToday now a → isToday now b.
Proof. unfold isToday. by intros ->. Qed.

Lemma atMidnight_time a b : timeOf a = timeOf b → atMidnight a → atMidnight b.
Proof. unfold atMidnight. by intros ->. Qed.
End DateFacts.

(** ** The loops of [removeDuplicateDates] *)
Section Loops.
Implicit Types (l : list DataPoint) (m : list (Z * DataPoint)).

Lemma split_loop today items acc :
  foldl (splitStep today) acc items =
    (acc.1 ++ filter (λ p, utcDateKey (timeOf p) = today) (usableItems items),
     acc.2 ++ filter (λ p, ¬ utcDateKey (timeOf p) = today) (usableItems items)).
Proof.
  revert acc. unfold usableItems.
  induction items as [|item items IH]; intros [a b]; simpl.
  - by rewrite !app_nil_r.
  - rewrite IH. unfold splitStep. destruct (usable item) as [p|]; [|done].
    rewrite !filter_cons. case_decide; simpl.
    + rewrite decide_False by tauto. by rewrite <- app_assoc.
    + rewrite decide_True by done. by rewrite <- app_assoc.
Qed.

Lemma today_loop l e t :
  foldl todayStep (e, t) l =
    (from_option Some e (last (filter atMidnight l)),
     foldl keepLater t (filter (λ p, ¬ atMidnight p) l)).
Proof.
  revert e t. induction l as [|x l IH]; intros e t; [done|].
  simpl. rewrite !filter_cons. unfold todayStep at 2.
  destruct (decide (atMidnight x)) as [Hm|Hm].
  - rewrite decide_False by tauto. rewrite Hm. simpl. rewrite IH.
    f_equal. rewrite last_cons.
    by destruct (last (filter atMidnight l)).
  - rewrite decide_True by done.
    apply not_true_is_false in Hm. rewrite Hm. simpl.
    destruct t as [old|]; simpl; [|by rewrite IH].
    case_decide; by rewrite IH.
Qed.

Lemma keepLater_None acc l :
  foldl keepLater acc l = None ↔ acc = None ∧ l = [].
Proof.
  revert acc. induction l as [|x l IH]; intros acc; simpl; [naive_solver|].
  rewrite IH. unfold keepLater. destruct acc; [case_decide|]; naive_solver.
Qed.

Lemma keepLater_Some acc l r :
  foldl keepLater acc l = Some r →
  (acc = Some r ∨ r ∈ l) ∧
  (∀ q, q ∈ l → timeOf q ≤ timeOf r) ∧
  (∀ a, acc = Some a → timeOf a ≤ timeOf r).
Proof.
  revert acc. induction l as [|x l IH]; intros acc; simpl.
  - intros ->. split_and!; [by left|by intros ? ?%elem_of_nil|].
    by intros ? [= ->].
  - intros (Hin & Hmax & Hacc)%IH. unfold keepLater in Hin, Hacc.
    destruct acc as [old|].
    + case_decide as Hlt.
      * specialize (Hacc x eq_refl). split_and!.
        -- right. destruct Hin as [[= ->]|?]; [left|by right].
        -- intros q [->|?]%elem_of_cons; [done|by apply Hmax].
        -- intros ? [= <-]. lia.
      * specialize (Hacc old eq_refl). split_and!.
        -- destruct Hin as [?|?]; [by left|right; by right].
        -- intros q [->|?]%elem_of_cons; [lia|by apply Hmax].
        -- by intros ? [= <-].
    + specialize (Hacc x eq_refl). split_and!.
      * right. destruct Hin as [[= ->]|?]; [left|by right].
      * intros q [->|?]%elem_of_cons; [done|by apply Hmax].
      * done.
Qed.

Lemma keepLater_latest l r : foldl keepLater None l = Some r → latestIn r l.
Proof.
  intros (Hin & Hmax & _)%keepLater_Some. split; [|done].
  by destruct Hin.
Qed.

Lemma keepLater_single l :
  (length l ≤ 1)%nat → option_list (foldl keepLater None l) = l.
Proof. destruct l as [|x [|y l]]; simpl; [done|done|lia]. Qed.

Lemma last_single {A} (l : list A) :
  (length l ≤ 1)%nat → option_list (last l) = l.
Proof. destruct l as [|x [|y l]]; simpl; [done|done|lia]. Qed.

(** *** The [seen] map *)
Lemma Map_get_set {V} (m : list (Z * V)) k v k' :
  Map_get (Map_set m k v) k' = if decide (k = k') then Some v else Map_get m k'.
Proof.
  induction m as [|[k0 v0] m IH]; simpl.
  - done.
  - destruct (decide (k0 = k)) as [->|Hne]; simpl.
    + by case_decide.
    + rewrite IH. repeat case_decide; by simplify_eq.
Qed.

Lemma Map_get_None {V} (m : list (Z * V)) k :
  Map_get m k = None ↔ k ∉ m.*1.
Proof.
  induction m as [|[k0 v0] m IH]; csimpl.
  - split; [intros _; apply not_elem_of_nil|done].
  - rewrite not_elem_of_cons. case_decide; naive_solver.
Qed.

Lemma Map_get_elem_of {V} (m : list (Z * V)) k v :
  Map_get m k = Some v → (k, v) ∈ m.
Proof.
  induction m as [|[k0 v0] m IH]; csimpl; [done|].
  case_decide; [intros [= ->]; subst; left|right; auto].
Qed.

Lemma Map_set_fresh {V} (m : list (Z * V)) k v :
  k ∉ m.*1 → Map_set m k v = m ++ [(k, v)].
Proof.
  induction m as [|[k0 v0] m IH]; csimpl; [done|].
  rewrite not_elem_of_cons. intros [Hne Hnin].
  rewrite decide_False by done. by rewrite IH.
Qed.

Lemma Map_set_keys {V} (m : list (Z * V)) k v :
  (Map_set m k v).*1 = if decide (k ∈ m.*1) then m.*1 else m.*1 ++ [k].
Proof.
  induction m as [|[k0 v0] m IH]; csimpl.
  - by destruct (decide (k ∈ [])) as [?%elem_of_nil|].
  - destruct (decide (k0 = k)) as [->|Hne]; csimpl.
    + by rewrite decide_True by left.
    + rewrite IH. destruct (decide (k ∈ m.*1)).
      * by rewrite decide_True by (by right).
      * rewrite decide_False; [done|]. rewrite not_elem_of_cons. naive_solver.
Qed.

Lemma Map_set_values {V} (m : list (Z * V)) k v x :
  x ∈ (Map_set m k v).*2 → x = v ∨ x ∈ m.*2.
Proof.
  induction m as [|[k0 v0] m IH]; csimpl.
  - intros ?%list_elem_of_singleton. by left.
  - case_decide; csimpl; rewrite !elem_of_cons; naive_solver.
Qed.
End Loops.

Section Seen.
Variable w : bool.
Implicit Types (l : list DataPoint) (m : list (Z * DataPoint)).

Lemma seenStep_get m x k :
  Map_get (seenStep w m x) k =
    if decide (bucketKey w x = k) then keepLater (Map_get m k) x
    else Map_get m k.
Proof.
  unfold seenStep, keepLater.
  destruct (Z.eq_dec (bucketKey w x) k) as [Heq|Hne];
    [rewrite (decide_True (P := bucketKey w x = k)) by done; subst k
    |rewrite (decide_False (P := bucketKey w x = k)) by done].
  - destruct (Map_get m (bucketKey w x)) as [old|] eqn:Hg.
    + case_decide; [|done]. rewrite Map_get_set. by rewrite decide_True.
    + rewrite Map_get_set. by rewrite decide_True.
  - destruct (Map_get m (bucketKey w x)) as [old|] eqn:Hg.
    + case_decide; [|done]. rewrite Map_get_set. by rewrite decide_False.
    + rewrite Map_get_set. by rewrite decide_False.
Qed.

Lemma seen_loop_get l m k :
  Map_get (foldl (seenStep w) m l) k =
    foldl keepLater (Map_get m k) (filter (λ p, bucketKey w p = k) l).
Proof.
  revert m. induction l as [|x l IH]; intros m; simpl; [done|].
  rewrite IH, seenStep_get, filter_cons. by case_decide.
Qed.

Lemma Map_set_WF m x : seenWF w m → seenWF w (Map_set m (bucketKey w x) x).
Proof.
  intros [Hnd Hkeys]. split.
  - rewrite Map_set_keys. case_decide as Hin; [done|].
    apply NoDup_app. split_and!; [done| |apply NoDup_singleton].
    intros k Hk ->%list_elem_of_singleton. done.
  - clear Hnd. induction Hkeys as [|[k0 v0] m Hk Hm IH]; simpl.
    + by repeat constructor.
    + case_decide; constructor; done.
Qed.

Lemma seenStep_WF m x : seenWF w m → seenWF w (seenStep w m x).
Proof.
  intros Hwf. unfold seenStep.
  destruct (Map_get m (bucketKey w x)); [case_decide|];
    auto using Map_set_WF.
Qed.

Lemma seen_loop_WF l m : seenWF w m → seenWF w (foldl (seenStep w) m l).
Proof.
  revert m. induction l as [|x l IH]; intros m Hwf; simpl; [done|].
  by apply IH, seenStep_WF.
Qed.

Lemma seen_loop_values l m x :
  x ∈ Map_values (foldl (seenStep w) m l) → x ∈ Map_values m ∨ x ∈ l.
Proof.
  unfold Map_values. revert m.
  induction l as [|y l IH]; intros m; simpl; [by left|].
  intros [Hin|Hin]%IH; [|right; by right].
  unfold seenStep in Hin.
  destruct (Map_get m (bucketKey w y)); [case_decide|]; try by left.
  all: apply Map_set_values in Hin as [->|?]; [right; left|by left].
Qed.

(** The values filed under [k]. *)
Lemma seen_bucket m k :
  seenWF w m →
  filter (λ p, bucketKey w p = k) (Map_values m) = option_list (Map_get m k).
Proof.
  unfold Map_values. intros [Hnd Hkeys].
  induction Hkeys as [|[k0 v0] m Hk Hm IH]; [done|].
  csimpl in *. apply NoDup_cons in Hnd as [Hnin Hnd].
  rewrite filter_cons. rewrite Hk. specialize (IH Hnd).
  destruct (decide (k0 = k)) as [->|Hne]; [|done].
  rewrite IH. apply Map_get_None in Hnin. by rewrite Hnin.
Qed.

Lemma seen_keys_NoDup m : seenWF w m → NoDup (bucketKey w <$> Map_values m).
Proof.
  unfold Map_values. intros [Hnd Hkeys].
  replace (bucketKey w <$> m.*2) with (m.*1); [done|].
  clear Hnd. induction Hkeys as [|[k0 v0] m Hk Hm IH]; [done|].
  csimpl in *. by rewrite IH, Hk.
Qed.

(** Points with pairwise distinct keys are all kept, in their order. *)
Lemma seen_loop_distinct l m :
  NoDup (bucketKey w <$> l) →
  (∀ x, x ∈ l → bucketKey w x ∉ m.*1) →
  foldl (seenStep w) m l = m ++ ((λ v, (bucketKey w v, v)) <$> l).
Proof.
  revert m. induction l as [|x l IH]; intros m Hnd Hfresh; simpl.
  - by rewrite app_nil_r.
  - rewrite fmap_cons in Hnd. apply NoDup_cons in Hnd as [Hx Hnd].
    assert (bucketKey w x ∉ m.*1) as Hxm by (apply Hfresh; left).
    unfold seenStep at 2. rewrite (proj2 (Map_get_None _ _) Hxm).
    rewrite Map_set_fresh by done. rewrite IH; [by rewrite <- app_assoc|done|].
    intros y Hy. rewrite fmap_app, elem_of_app. simpl.
    rewrite list_elem_of_singleton. intros [Hin|Heq].
    + eapply Hfresh; [by right|done].
    + apply Hx. rewrite <- Heq. by apply list_elem_of_fmap_2.
Qed.

Lemma seen_values_distinct l :
  NoDup (bucketKey w <$> l) → Map_values (foldl (seenStep w) [] l) = l.
Proof.
  intros Hnd. rewrite seen_loop_distinct; [|done|].
  - unfold Map_values. simpl. rewrite <- list_fmap_compose.
    apply list_fmap_id.
  - intros ? _. apply not_elem_of_nil.
Qed.
End Seen.

Section FilterFacts.
Context {A : Type} (P : A → Prop) `{∀ x, Decision (P x)}.

Lemma filter_all (l : list A) : Forall P l → filter P l = l.
Proof.
  induction 1 as [|x l Hx Hl IH]; [done|].
  rewrite filter_cons, decide_True by done. by rewrite IH.
Qed.

Lemma filter_none (l : list A) : Forall (λ x, ¬ P x) l → filter P l = [].
Proof.
  induction 1 as [|x l Hx Hl IH]; [done|].
  by rewrite filter_cons, decide_False.
Qed.

Lemma filter_StronglySorted (R : relation A) (l : list A) :
  StronglySorted R l → StronglySorted R (filter P l).
Proof.
  induction 1 as [|x l Hl IH Hx]; [constructor|].
  rewrite filter_cons. case_decide; [|done].
  constructor; [done|].
  rewrite Forall_forall in Hx |- *.
  intros y [_ Hy]%list_elem_of_filter. by apply Hx.
Qed.
End FilterFacts.

(** ** The structure of [removeDuplicateDates] *)
Section Reconcile.
Variables (now : Z) (w : bool).
Implicit Types (items : list rawItem) (p q : DataPoint).

Lemma byTime_key a b : byTime a b = timeOf a - timeOf b.
Proof. done. Qed.

Lemma removeDuplicateDates_unfold items :
  removeDuplicateDates now (Some items) w = sort byTime (unsorted now items w).
Proof.
  destruct items as [|item items]; [done|].
  unfold removeDuplicateDates. rewrite split_loop. cbv zeta. simpl fst. simpl snd.
  rewrite !app_nil_l. rewrite today_loop. simpl from_option.
  unfold unsorted, seenOf, earliestToday, latestToday, todayEntries,
    otherEntries, isToday, pushIf.
  set (e := last _). set (t := foldl keepLater _ _).
  by destruct e, t; simpl; rewrite ?app_nil_r, <- ?app_assoc.
Qed.

Lemma usable_elem_of items p :
  p ∈ usableItems items ↔ ItemPoint p ∈ items ∧ truthy (timestamp p) = true.
Proof.
  unfold usableItems. rewrite list_elem_of_omap. split.
  - intros (item & Hin & Hu). destruct item as [| |p']; try done.
    simpl in Hu. destruct (truthy (timestamp p')) eqn:Ht; [|done].
    by simplify_eq.
  - intros [Hin Ht]. exists (ItemPoint p). split; [done|].
    simpl. by rewrite Ht.
Qed.

Lemma earliestToday_Some items m :
  earliestToday now items = Some m →
  m ∈ todayEntries now items ∧ atMidnight m.
Proof.
  intros Hin%last_Some_elem_of. by apply list_elem_of_filter in Hin as [? ?].
Qed.

Lemma latestToday_Some items p :
  latestToday now items = Some p →
  latestIn p (filter (λ q, ¬ atMidnight q) (todayEntries now items)).
Proof. apply keepLater_latest. Qed.

Lemma latestToday_elem items p :
  latestToday now items = Some p →
  p ∈ todayEntries now items ∧ ¬ atMidnight p.
Proof.
  intros [Hin _]%latestToday_Some.
  by apply list_elem_of_filter in Hin as [? ?].
Qed.

Lemma seenOf_WF items : seenWF w (seenOf now items w).
Proof. apply seen_loop_WF. split; constructor. Qed.

Lemma seenOf_values items p :
  p ∈ Map_values (seenOf now items w) → p ∈ otherEntries now items.
Proof.
  intros [Hin|Hin]%seen_loop_values; [|done].
  by apply elem_of_nil in Hin.
Qed.

Lemma today_pair_today items :
  Forall (isToday now)
    (option_list (earliestToday now items) ++ option_list (latestToday now items)).
Proof.
  apply Forall_app. split.
  - destruct (earliestToday now items) as [m|] eqn:He; [|constructor].
    apply earliestToday_Some in He as [Hin _].
    apply list_elem_of_filter in Hin as [? _]. by repeat constructor.
  - destruct (latestToday now items) as [p|] eqn:Hl; [|constructor].
    apply latestToday_elem in Hl as [Hin _].
    apply list_elem_of_filter in Hin as [? _]. by repeat constructor.
Qed.

Lemma seen_values_other items :
  Forall (λ p, ¬ isToday now p) (Map_values (seenOf now items w)).
Proof.
  apply Forall_forall. intros p Hin%seenOf_values.
  by apply list_elem_of_filter in Hin as [? _].
Qed.

Lemma unsorted_today items :
  filter (isToday now) (unsorted now items w) =
    option_list (earliestToday now items) ++ option_list (latestToday now items).
Proof.
  unfold unsorted. rewrite filter_app.
  rewrite (filter_none _ _ (seen_values_other items)).
  apply filter_all, today_pair_today.
Qed.

Lemma unsorted_other items :
  filter (λ p, ¬ isToday now p) (unsorted now items w) =
    Map_values (seenOf now items w).
Proof.
  unfold unsorted. rewrite filter_app.
  rewrite (filter_all _ _ (seen_values_other items)).
  rewrite filter_none; [by rewrite app_nil_r|].
  eapply Forall_impl; [apply today_pair_today|]. tauto.
Qed.

Lemma unsorted_usable items p :
  p ∈ unsorted now items w → p ∈ usableItems items.
Proof.
  unfold unsorted. rewrite !elem_of_app. intros [Hin|[Hin|Hin]].
  - apply seenOf_values in Hin. by apply list_elem_of_filter in Hin as [_ ?].
  - destruct (earliestToday now items) as [m|] eqn:He; simpl in Hin;
      [|by apply elem_of_nil in Hin].
    apply list_elem_of_singleton in Hin as ->.
    apply earliestToday_Some in He as [Hin _].
    by apply list_elem_of_filter in Hin as [_ ?].
  - destruct (latestToday now items) as [m|] eqn:He; simpl in Hin;
      [|by apply elem_of_nil in Hin].
    apply list_elem_of_singleton in Hin as ->.
    apply latestToday_elem in He as [Hin _].
    by apply list_elem_of_filter in Hin as [_ ?].
Qed.
End Reconcile.

Section Canonical.
Variables (now : Z) (w : bool).
Implicit Types (items : list rawItem) (l : list DataPoint).

Lemma bucketKey_compose l :
  bucketKey w <$> l =
    (λ t, if w then utcDateKey (weekStart t) else utcDateKey t) <$> (timeOf <$> l).
Proof. rewrite <- list_fmap_compose. by apply list_fmap_ext. Qed.

Lemma NoDup_bucket_time l : NoDup (bucketKey w <$> l) → NoDup (timeOf <$> l).
Proof. rewrite bucketKey_compose. apply NoDup_fmap_1. Qed.

(** No two of the retained points carry the same instant. *)
Lemma unsorted_NoDup_time items : NoDup (timeOf <$> unsorted now items w).
Proof.
  unfold unsorted. rewrite fmap_app. apply NoDup_app. split_and!.
  - apply NoDup_bucket_time, seen_keys_NoDup, seenOf_WF.
  - intros t (a & -> & Ha)%list_elem_of_fmap (b & Hab & Hb)%list_elem_of_fmap.
    pose proof (seen_values_other now w items) as Hother.
    pose proof (today_pair_today now items) as Htoday.
    rewrite Forall_forall in Hother, Htoday.
    apply (Hother a Ha). eapply isToday_time; [symmetry; exact Hab|].
    by apply Htoday.
  - destruct (earliestToday now items) as [m|] eqn:He;
      destruct (latestToday now items) as [p|] eqn:Hl; simpl;
      try by (repeat constructor; try apply not_elem_of_nil).
    apply earliestToday_Some in He as [_ Hm].
    apply latestToday_elem in Hl as [_ Hp].
    apply NoDup_cons; split; [|apply NoDup_singleton].
    intros Heq%list_elem_of_singleton. apply Hp.
    by eapply atMidnight_time.
Qed.

(** A list that already has the shape of an output is kept whole. *)
Lemma unsorted_fixpoint l :
  Forall (λ p, truthy (timestamp p) = true) l →
  NoDup (bucketKey w <$> filter (λ p, ¬ isToday now p) l) →
  (length (filter atMidnight (filter (isToday now) l)) ≤ 1)%nat →
  (length (filter (λ p, ¬ atMidnight p) (filter (isToday now) l)) ≤ 1)%nat →
  unsorted now (ItemPoint <$> l) w ≡ₚ l.
Proof.
  intros Htruthy Hkeys Hmid Hlater.
  assert (usableItems (ItemPoint <$> l) = l) as Husable.
  { unfold usableItems. clear -Htruthy.
    induction Htruthy as [|p l Hp Hl IH]; [done|].
    csimpl. by rewrite Hp, IH. }
  unfold unsorted, seenOf, earliestToday, latestToday, todayEntries,
    otherEntries. rewrite Husable.
  rewrite seen_values_distinct by done.
  rewrite last_single, keepLater_single by done.
  rewrite filter_app_complement.
  rewrite (comm (++)). apply filter_app_complement.
Qed.

Lemma output_perm items :
  removeDuplicateDates now (Some items) w ≡ₚ unsorted now items w.
Proof.
  rewrite removeDuplicateDates_unfold. apply sort_perm.
Qed.

Lemma output_strict items :
  StronglySorted (λ a b, timeOf a < timeOf b)
    (removeDuplicateDates now (Some items) w).
Proof.
  rewrite removeDuplicateDates_unfold.
  apply (sort_strict timeOf); [apply byTime_key|apply unsorted_NoDup_time].
Qed.

Lemma output_truthy items :
  Forall (λ p, truthy (timestamp p) = true)
    (removeDuplicateDates now (Some items) w).
Proof.
  rewrite output_perm. apply Forall_forall.
  intros p Hin%unsorted_usable. by apply usable_elem_of in Hin as [_ ?].
Qed.

Lemma output_other_keys items :
  NoDup (bucketKey w <$>
    filter (λ p, ¬ isToday now p) (removeDuplicateDates now (Some items) w)).
Proof.
  rewrite output_perm, unsorted_other.
  apply seen_keys_NoDup, seenOf_WF.
Qed.

Lemma today_pair_midnight items :
  filter atMidnight
    (option_list (earliestToday now items) ++ option_list (latestToday now items))
  = option_list (earliestToday now items).
Proof.
  rewrite filter_app.
  destruct (earliestToday now items) as [m|] eqn:He;
    destruct (latestToday now items) as [p|] eqn:Hl; simpl; try done.
  - apply earliestToday_Some in He as [_ Hm].
    apply latestToday_elem in Hl as [_ Hp].
    rewrite !filter_cons, !filter_nil.
    by rewrite (decide_True (P := atMidnight m)),
      (decide_False (P := atMidnight p)).
  - apply earliestToday_Some in He as [_ Hm].
    rewrite filter_cons, filter_nil. by rewrite decide_True.
  - apply latestToday_elem in Hl as [_ Hp].
    rewrite filter_cons, filter_nil. by rewrite decide_False.
Qed.

Lemma today_pair_later items :
  filter (λ p, ¬ atMidnight p)
    (option_list (earliestToday now items) ++ option_list (latestToday now items))
  = option_list (latestToday now items).
Proof.
  rewrite filter_app.
  destruct (earliestToday now items) as [m|] eqn:He;
    destruct (latestToday now items) as [p|] eqn:Hl; simpl; try done.
  - apply earliestToday_Some in He as [_ Hm].
    apply latestToday_elem in Hl as [_ Hp].
    rewrite !filter_cons, !filter_nil.
    rewrite (decide_False (P := ¬ atMidnight m)) by tauto.
    by rewrite (decide_True (P := ¬ atMidnight p)).
  - apply earliestToday_Some in He as [_ Hm].
    rewrite filter_cons, filter_nil. rewrite decide_False by tauto. done.
  - apply latestToday_elem in Hl as [_ Hp].
    rewrite filter_cons, filter_nil. by rewrite decide_True.
Qed.

Lemma option_list_length {A} (o : option A) : (length (option_list o) ≤ 1)%nat.
Proof. destruct o; simpl; lia. Qed.

(** The two retained points of today stand in the order midnight, later. *)
Lemma today_pair_sorted items :
  StronglySorted (λ a b, timeOf a < timeOf b)
    (option_list (earliestToday now items) ++ option_list (latestToday now items)).
Proof.
  destruct (earliestToday now items) as [m|] eqn:He;
    destruct (latestToday now items) as [p|] eqn:Hl; simpl;
    repeat constructor.
  apply earliestToday_Some in He as [Hm1 Hm2].
  apply latestToday_elem in Hl as [Hp1 Hp2].
  apply list_elem_of_filter in Hm1 as [Hm1 _].
  apply list_elem_of_filter in Hp1 as [Hp1 _].
  apply midnight_first; [|done|done].
  unfold isToday, utcDateKey in *. congruence.
Qed.

Lemma output_today items :
  filter (isToday now) (removeDuplicateDates now (Some items) w) =
    option_list (earliestToday now items) ++ option_list (latestToday now items).
Proof.
  apply (sorted_lt_unique timeOf).
  - apply filter_StronglySorted, output_strict.
  - apply today_pair_sorted.
  - by rewrite output_perm, unsorted_today.
Qed.
End Canonical.

(** ** Reconciliation: the properties *)
Section ReconcileProperties.
Implicit Types (now : Z) (w : bool) (items : list rawItem).

(** The clock matters through its UTC day only. *)
Lemma removeDuplicateDates_same_day now now' data w :
  utcDateKey now = utcDateKey now' →
  removeDuplicateDates now data w = removeDuplicateDates now' data w.
Proof. unfold removeDuplicateDates. by intros ->. Qed.

Lemma unsorted_usableItems now items items' w :
  usableItems items = usableItems items' →
  unsorted now items w = unsorted now items' w.
Proof.
  intros Heq.
  unfold unsorted, seenOf, earliestToday, latestToday, todayEntries,
    otherEntries.
  by rewrite Heq.
Qed.

Lemma usableItems_idem items :
  usableItems (ItemPoint <$> usableItems items) = usableItems items.
Proof.
  unfold usableItems. induction items as [|item items IH]; [done|].
  csimpl. destruct (usable item) as [p|] eqn:Hu; [|done].
  csimpl. rewrite IH.
  destruct item as [| |p']; try done. simpl in Hu.
  destruct (truthy (timestamp p')) eqn:Ht; [|done].
  simplify_eq. by rewrite Ht.
Qed.

(** A second pass over an output retains every point of it. *)
Lemma second_pass_unsorted now items w :
  unsorted now (ItemPoint <$> removeDuplicateDates now (Some items) w) w
  ≡ₚ unsorted now items w.
Proof.
  rewrite <- (output_perm now w items). apply unsorted_fixpoint.
  - apply output_truthy.
  - apply output_other_keys.
  - rewrite output_today, today_pair_midnight. apply option_list_length.
  - rewrite output_today, today_pair_later. apply option_list_length.
Qed.

(** C1, as the code has it.  Every call reads the clock.
    [removeDuplicateDates], applied to its own output while the clock is
    still on the UTC day of the first call, returns that output again, for
    every input array (or null) and either granularity. *)
Theorem removeDuplicateDates_idempotent now now' data w :
  utcDateKey now = utcDateKey now' →
  removeDuplicateDates now'
    (Some (ItemPoint <$> removeDuplicateDates now data w)) w
  = removeDuplicateDates now data w.
Proof.
  intros Hday. destruct data as [items|]; [|done].
  rewrite <- (removeDuplicateDates_same_day now now') by done.
  set (out := removeDuplicateDates now (Some items) w).
  assert (unsorted now (ItemPoint <$> out) w ≡ₚ unsorted now items w) as Hperm
    by apply second_pass_unsorted.
  rewrite (removeDuplicateDates_unfold now w (ItemPoint <$> out)).
  transitivity (sort byTime (unsorted now items w));
    [|symmetry; apply removeDuplicateDates_unfold].
  apply (sort_unique timeOf); [apply byTime_key|done|].
  rewrite Hperm. apply unsorted_NoDup_time.
Qed.

(** C2. Every output of [removeDuplicateDates] is a canonical history: it
    is sorted by non-decreasing timestamp; among the entries that are not
    on the current UTC day no two share a bucket (the UTC day, or the week
    for weekly data); and the entries on the current UTC day are at most
    two, a midnight (00:00:00) entry followed by the latest other entry of
    today. *)
Theorem removeDuplicateDates_canonical now data w :
  let out := removeDuplicateDates now data w in
  StronglySorted (λ a b, timeOf a ≤ timeOf b) out ∧
  NoDup (bucketKey w <$> filter (λ p, ¬ isToday now p) out) ∧
  ∃ e t : option DataPoint,
    filter (isToday now) out = option_list e ++ option_list t ∧
    (length (filter (isToday now) out) ≤ 2)%nat ∧
    (∀ m, e = Some m → atMidnight m) ∧
    (∀ p, t = Some p →
       latestIn p (filter (λ q, ¬ atMidnight q)
                     (todayEntries now (default [] data)))).
Proof.
  destruct data as [items|]; cbv zeta; simpl default.
  - split_and!.
    + rewrite removeDuplicateDates_unfold.
      apply (sort_sorted timeOf), byTime_key.
    + apply output_other_keys.
    + exists (earliestToday now items), (latestToday now items).
      rewrite output_today. split_and!; [done| | |].
      * rewrite length_app.
        pose proof (option_list_length (earliestToday now items)).
        pose proof (option_list_length (latestToday now items)). lia.
      * by intros m [_ ?]%earliestToday_Some.
      * intros p. apply latestToday_Some.
  - split_and!; [constructor|constructor|].
    exists None, None. simpl. split_and!; [done|lia|done|done].
Qed.

(** What the two loops over today's points keep: of the usable points on
    the current UTC day, the last one in array order whose UTC time is
    00:00:00 (milliseconds not looked at), and the latest of the others,
    the midnight one first.  When today's points are a point in the first
    second of the day and a point at or after 00:00:01, the output holds
    both, in that order. *)
Theorem today_entries_retained now items w :
  let todays := todayEntries now items in
  let out := removeDuplicateDates now (Some items) w in
  (∃ e t : option DataPoint,
     filter (isToday now) out = option_list e ++ option_list t ∧
     e = last (filter atMidnight todays) ∧
     match t with
     | Some p => latestIn p (filter (λ q, ¬ atMidnight q) todays)
     | None => filter (λ q, ¬ atMidnight q) todays = []
     end) ∧
  (∀ m p, todays ≡ₚ [m; p] →
     TimeWithinDay (timeOf m) < msPerSecond →
     msPerSecond ≤ TimeWithinDay (timeOf p) →
     filter (isToday now) out = [m; p]).
Proof.
  intros todays out. split.
  - exists (earliestToday now items), (latestToday now items).
    unfold out. rewrite output_today. split_and!; [done|done|].
    destruct (latestToday now items) as [p|] eqn:Hl.
    + by apply latestToday_Some.
    + by apply keepLater_None in Hl as [_ ?].
  - intros m p Hperm Hm Hp. unfold out. rewrite output_today.
    assert (atMidnight m) as Hm' by by apply isMidnight_spec.
    assert (¬ atMidnight p) as Hp'.
    { unfold atMidnight. rewrite isMidnight_spec.
      unfold msPerSecond in Hp. lia. }
    assert (filter atMidnight todays = [m]) as Hmids.
    { apply Permutation_singleton_r. rewrite Hperm.
      rewrite !filter_cons, filter_nil.
      by rewrite (decide_True (P := atMidnight m)),
        (decide_False (P := atMidnight p)). }
    assert (filter (λ q, ¬ atMidnight q) todays = [p]) as Hlaters.
    { apply Permutation_singleton_r. rewrite Hperm.
      rewrite !filter_cons, filter_nil.
      rewrite (decide_False (P := ¬ atMidnight m)) by tauto.
      by rewrite (decide_True (P := ¬ atMidnight p)). }
    unfold earliestToday, latestToday. fold todays.
    by rewrite Hmids, Hlaters.
Qed.

(** C4. Among the points that are not on the current UTC day, every
    bucket (UTC calendar day for daily data, Sunday-aligned UTC week for
    weekly data) that holds at least one usable input point is left with
    exactly one point in the output, and that point has the latest
    timestamp of the bucket. *)
Theorem latest_of_bucket_kept now items w k :
  let bucket := filter (inBucket now w k) (usableItems items) in
  bucket ≠ [] →
  ∃ b, filter (inBucket now w k) (removeDuplicateDates now (Some items) w) = [b]
       ∧ latestIn b bucket.
Proof.
  intros bucket Hne.
  assert (bucket = filter (λ p, bucketKey w p = k) (otherEntries now items))
    as Hbucket.
  { unfold bucket, otherEntries, inBucket. rewrite list_filter_filter.
    apply list_filter_iff. tauto. }
  pose proof (seen_loop_get w (otherEntries now items) [] k) as Hget.
  fold (seenOf now items w) in Hget. simpl in Hget. rewrite <- Hbucket in Hget.
  destruct (Map_get (seenOf now items w) k) as [b|] eqn:Hb.
  - exists b. split.
    + apply Permutation_singleton_r.
      rewrite (list_filter_iff (inBucket now w k)
                 (λ p, bucketKey w p = k ∧ ¬ isToday now p))
        by (unfold inBucket; tauto).
      rewrite <- list_filter_filter.
      rewrite output_perm, unsorted_other.
      rewrite seen_bucket by apply seenOf_WF. by rewrite Hb.
    + by apply keepLater_latest.
  - symmetry in Hget. by apply keepLater_None in Hget as [_ ?].
Qed.

(** C10. [removeDuplicateDates] returns the empty array for a null and
    for an empty argument; every point of an output is a non-null element
    of the input with a truthy timestamp, so in particular not one with
    the number 0 as timestamp; and the elements that are unusable (null,
    without a timestamp, or with a falsy one) have no effect on the
    output. *)
Theorem unusable_items_discarded now w :
  removeDuplicateDates now None w = [] ∧
  removeDuplicateDates now (Some []) w = [] ∧
  (∀ items p, p ∈ removeDuplicateDates now (Some items) w →
     ItemPoint p ∈ items ∧ truthy (timestamp p) = true ∧
     timestamp p ≠ TNumber 0) ∧
  (∀ items,
     removeDuplicateDates now (Some items) w =
     removeDuplicateDates now (Some (ItemPoint <$> usableItems items)) w) ∧
  (∀ c, removeDuplicateDates now (Some [ItemPoint (mkPoint (TNumber 0) c)]) w
        = []).
Proof.
  split_and!; [done|done| | |done].
  - intros items p Hin. rewrite output_perm in Hin.
    apply unsorted_usable, usable_elem_of in Hin as [Hin Ht].
    split_and!; [done|done|]. intros Heq. by rewrite Heq in Ht.
  - intros items. rewrite !removeDuplicateDates_unfold. f_equal.
    apply unsorted_usableItems. by rewrite usableItems_idem.
Qed.
End ReconcileProperties.

(** ** Reconciliation on a concrete day *)
Section ReconcileExamples.
Import Sample.

(** C3, on the code.  Today's points are one at exactly 00:00:00.000 UTC
    and a later one at 00:00:00.500 UTC.  The comment in the code says that
    for today both the earliest (00:00:00) and the latest timestamp are
    kept; the code keeps only one of the two, the one that comes later in
    the array: the midnight point is lost when it comes first, the later
    point when it comes first. *)
Lemma midnight_point_replaced :
  let m := at_ day 1 in
  let p := at_ (day + 500) 2 in
  let out := removeDuplicateDates clock (Some [ItemPoint m; ItemPoint p]) false in
  let out' := removeDuplicateDates clock (Some [ItemPoint p; ItemPoint m]) false in
  isToday clock m ∧ isToday clock p ∧
  TimeWithinDay (timeOf m) = 0 ∧ timeOf m < timeOf p ∧
  out = [p] ∧ ¬ (m ∈ out ∧ p ∈ out) ∧
  out' = [m] ∧ ¬ (m ∈ out' ∧ p ∈ out').
Proof.
  intros m p out out'.
  assert (out = [p]) as Hout by (by vm_compute).
  assert (out' = [m]) as Hout' by (by vm_compute).
  split_and!; [by vm_compute..|done| |done|].
  - rewrite Hout. intros [Hm _].
    apply list_elem_of_singleton in Hm. by vm_compute in Hm.
  - rewrite Hout'. intros [_ Hp].
    apply list_elem_of_singleton in Hp. by vm_compute in Hp.
Qed.

(** C1, as stated, fails: once the clock has passed into the next UTC day,
    yesterday's two entries are one bucket and only the later one stays, so
    the second pass does not return the output of the first. *)
Lemma second_pass_next_day :
  let m := at_ day 1 in
  let p := at_ (day + 14 * msPerHour) 2 in
  let out := removeDuplicateDates clock (Some [ItemPoint m; ItemPoint p]) false in
  out = [m; p] ∧
  removeDuplicateDates (clock + msPerDay) (Some (ItemPoint <$> out)) false = [p] ∧
  removeDuplicateDates (clock + msPerDay) (Some (ItemPoint <$> out)) false ≠ out.
Proof. by vm_compute. Qed.

Lemma removeDuplicateDates_idempotent_witness :
  let items := [ItemPoint (at_ (day + 14 * msPerHour) 2); ItemNull;
                ItemPoint (at_ (day - 5) 3); ItemPoint (at_ day 1);
                ItemPoint (at_ (day - 10) 4)] in
  removeDuplicateDates (clock + msPerHour)
    (Some (ItemPoint <$> removeDuplicateDates clock (Some items) true)) true
  = removeDuplicateDates clock (Some items) true.
Proof.
  intros items.
  apply (removeDuplicateDates_idempotent clock (clock + msPerHour)).
  reflexivity.
Defined.

Lemma today_entries_retained_witness :
  let m := at_ day 1 in
  let p := at_ (day + 14 * msPerHour) 2 in
  let items := [ItemPoint p; ItemPoint (at_ (day - 5) 3); ItemPoint m] in
  filter (isToday clock) (removeDuplicateDates clock (Some items) true)
    = [m; p].
Proof.
  intros m p items.
  apply (proj2 (today_entries_retained clock items true) m p).
  - vm_compute. apply perm_swap.
  - by vm_compute.
  - by vm_compute.
Defined.

Lemma latest_of_bucket_kept_witness :
  let items := [ItemPoint (at_ (day - 10) 4); ItemPoint (at_ (day - 5) 3);
                ItemPoint (at_ (day - msPerDay) 5); ItemPoint (at_ day 1)] in
  ∃ b, filter (inBucket clock false 20225)
         (removeDuplicateDates clock (Some items) false) = [b]
       ∧ latestIn b (filter (inBucket clock false 20225) (usableItems items)).
Proof.
  intros items.
  apply (latest_of_bucket_kept clock items false 20225).
  by vm_compute.
Defined.

Lemma unusable_items_discarded_witness :
  let p := at_ (day - 5) 3 in
  let items := [ItemNull; ItemPoint (at_ 0 9); ItemPoint p] in
  ItemPoint p ∈ items ∧ truthy (timestamp p) = true ∧ timestamp p ≠ TNumber 0.
Proof.
  intros p items.
  apply (proj1 (proj2 (proj2 (unusable_items_discarded clock false))) items p).
  vm_compute. left.
Defined.
End ReconcileExamples.

(** ** Series alignment *)
Section SetFacts.
Context {A : Type} `{EqDecision A}.

Lemma Set_add_loop_elem_of (l s : list A) x :
  x ∈ foldl Set_add s l ↔ x ∈ s ∨ x ∈ l.
Proof.
  revert s. induction l as [|y l IH]; intros s; simpl.
  - rewrite elem_of_nil. tauto.
  - rewrite IH, elem_of_cons. unfold Set_add.
    case_decide; [|rewrite elem_of_app, list_elem_of_singleton]; naive_solver.
Qed.

Lemma Set_add_loop_NoDup (l s : list A) : NoDup s → NoDup (foldl Set_add s l).
Proof.
  revert s. induction l as [|y l IH]; intros s Hs; simpl; [done|].
  apply IH. unfold Set_add. case_decide; [done|].
  apply NoDup_app. split_and!; [done| |apply NoDup_singleton].
  by intros x Hx ->%list_elem_of_singleton.
Qed.

Lemma newSet_elem_of (l : list A) x : x ∈ newSet l ↔ x ∈ l.
Proof.
  unfold newSet. rewrite Set_add_loop_elem_of, elem_of_nil. tauto.
Qed.

Lemma newSet_NoDup (l : list A) : NoDup (newSet l).
Proof. apply Set_add_loop_NoDup, NoDup_nil_2. Qed.

Lemma find_Some (f : A → bool) (l : list A) x :
  find f l = Some x → x ∈ l ∧ f x = true.
Proof.
  induction l as [|y l IH]; simpl; [done|].
  destruct (f y) eqn:Hy.
  - intros [= ->]. split; [left|done].
  - intros [? ?]%IH. split; [by right|done].
Qed.

Lemma find_None (f : A → bool) (l : list A) :
  find f l = None ↔ ∀ x, x ∈ l → f x = false.
Proof.
  induction l as [|y l IH]; simpl.
  - split; [by intros _ ? ?%elem_of_nil|done].
  - destruct (f y) eqn:Hy.
    + split; [done|]. intros Hall. specialize (Hall y). rewrite Hy in Hall.
      discriminate Hall. left.
    + rewrite IH. split.
      * intros Hall x [->|?]%elem_of_cons; auto.
      * intros Hall x ?. apply Hall. by right.
Qed.
End SetFacts.

Section Alignment.
Variable formatDate : Z → string.
Variable getProcessDisplayName : string → string.
Implicit Types (A B : list DataPoint) (t : jsTime).

Lemma byDate_key a b : byDate a b = newDate a - newDate b.
Proof. done. Qed.

Lemma uniqueTimestamps_elem_of A B t :
  t ∈ uniqueTimestamps A B ↔ t ∈ timestamp <$> A ∨ t ∈ timestamp <$> B.
Proof.
  unfold uniqueTimestamps. rewrite sort_perm, newSet_elem_of.
  apply elem_of_app.
Qed.

Lemma uniqueTimestamps_NoDup A B : NoDup (uniqueTimestamps A B).
Proof. unfold uniqueTimestamps. rewrite sort_perm. apply newSet_NoDup. Qed.

Lemma uniqueTimestamps_sorted A B :
  StronglySorted (λ a b, newDate a ≤ newDate b) (uniqueTimestamps A B).
Proof. apply (sort_sorted newDate), byDate_key. Qed.

Lemma valueAt_spec A t :
  (∃ p, p ∈ A ∧ timestamp p = t ∧ valueAt A t = count p) ∨
  ((∀ p, p ∈ A → timestamp p ≠ t) ∧ valueAt A t = None).
Proof.
  unfold valueAt, pointAt.
  destruct (find _ A) as [p|] eqn:Hfind.
  - left. apply find_Some in Hfind as [Hin Ht].
    apply bool_decide_eq_true in Ht. by exists p.
  - right. split; [|done]. intros p Hin.
    rewrite find_None in Hfind. specialize (Hfind p Hin).
    by apply bool_decide_eq_false in Hfind.
Qed.

(** C9. The labels of the combined chart are the formatted timestamps of
    the distinct timestamps of both series, sorted by time; both value
    arrays are as long as the labels; the value of a series at a timestamp
    is the count of a point of that series with exactly that timestamp
    value, and null when it has none.  For [A = [{t1, c1}]],
    [B = [{t2, c2}]] with [t1 ≠ t2] and [t1] not after [t2] the timeline is
    [[t1, t2]], with values [[c1, null]] and [[null, c2]]. *)
Theorem updateStandardCombinedChart_aligned primary secondary A B :
  let chart :=
    updateStandardCombinedChart formatDate getProcessDisplayName
      primary secondary A B in
  let ts := uniqueTimestamps A B in
  labels chart = (λ t, formatDate (newDate t)) <$> ts ∧
  StronglySorted (λ a b, newDate a ≤ newDate b) ts ∧
  NoDup ts ∧
  (∀ t, t ∈ ts ↔ t ∈ timestamp <$> A ∨ t ∈ timestamp <$> B) ∧
  length (primaryValues chart) = length (labels chart) ∧
  length (secondaryValues chart) = length (labels chart) ∧
  (∀ i t, ts !! i = Some t →
     ∃ a b, primaryValues chart !! i = Some a ∧
            secondaryValues chart !! i = Some b ∧
            ((∃ p, p ∈ A ∧ timestamp p = t ∧ a = count p) ∨
             ((∀ p, p ∈ A → timestamp p ≠ t) ∧ a = None)) ∧
            ((∃ p, p ∈ B ∧ timestamp p = t ∧ b = count p) ∨
             ((∀ p, p ∈ B → timestamp p ≠ t) ∧ b = None))) ∧
  (∀ t1 t2 c1 c2, A = [mkPoint t1 c1] → B = [mkPoint t2 c2] →
     t1 ≠ t2 → newDate t1 ≤ newDate t2 →
     ts = [t1; t2] ∧ primaryValues chart = [c1; None] ∧
     secondaryValues chart = [None; c2]).
Proof.
  intros chart ts. split_and!.
  - done.
  - apply uniqueTimestamps_sorted.
  - apply uniqueTimestamps_NoDup.
  - apply uniqueTimestamps_elem_of.
  - unfold chart. simpl. by rewrite !length_fmap.
  - unfold chart. simpl. by rewrite !length_fmap.
  - intros i t Hi. exists (valueAt A t), (valueAt B t).
    unfold chart. simpl. rewrite !list_lookup_fmap. fold ts. rewrite Hi.
    split_and!; [done|done|apply valueAt_spec|apply valueAt_spec].
  - intros t1 t2 c1 c2 -> -> Hne Hle.
    assert (ts = [t1; t2]) as Hts.
    { unfold ts, uniqueTimestamps, newSet. simpl. unfold Set_add at 2. simpl.
      unfold Set_add. rewrite decide_False.
      - simpl. rewrite decide_True; [done|]. rewrite byDate_key. lia.
      - rewrite list_elem_of_singleton. congruence. }
    unfold chart. simpl. fold ts. rewrite Hts. simpl.
    unfold valueAt, pointAt. simpl.
    repeat case_bool_decide; by simplify_eq.
Qed.
End Alignment.

(** ** Chunking *)
Section CeilingFacts.
Local Open Scope nat_scope.

Lemma ceil5_step n : n ≠ 0 → (n + 4) / 5 = S ((n - 5 + 4) / 5).
Proof.
  intros Hn. destruct (le_lt_dec 5 n) as [Hge|Hlt].
  - replace (n + 4) with ((n - 5 + 4) + 1 * 5) by lia.
    rewrite Nat.div_add by lia. lia.
  - replace (n - 5) with 0 by lia.
    do 5 (destruct n as [|n]; [try lia; reflexivity|]). lia.
Qed.

Lemma ceil5_lt n i : i < (n + 4) / 5 → 5 * i < n.
Proof.
  intros Hi. pose proof (Nat.div_mod_eq (n + 4) 5).
  pose proof (Nat.mod_upper_bound (n + 4) 5). lia.
Qed.

Lemma ceil5_full n i : S i < (n + 4) / 5 → 5 * i + 5 ≤ n.
Proof.
  intros Hi. pose proof (Nat.div_mod_eq (n + 4) 5).
  pose proof (Nat.mod_upper_bound (n + 4) 5). lia.
Qed.
End CeilingFacts.

Section ChunkFacts.
Context {A : Type}.
Implicit Types l : list A.

Lemma chunked_nil : chunked (@nil A) = [].
Proof. done. Qed.

Lemma chunked_cons l :
  l ≠ [] → chunked l = take CHUNK_SIZE l :: chunked (drop CHUNK_SIZE l).
Proof.
  intros Hne. unfold chunked. rewrite length_drop.
  assert (length l ≠ 0)%nat as Hlen by (by intros ?%nil_length_inv).
  unfold CHUNK_SIZE in *.
  by rewrite (ceil5_step (length l)).
Qed.

Lemma chunked_eq_nil l : chunked l = [] ↔ l = [].
Proof.
  split; [|by intros ->].
  destruct l as [|x l]; [done|]. by rewrite chunked_cons.
Qed.

(** Induction along the chunks. *)
Lemma chunked_ind (P : list A → Prop) :
  P [] → (∀ l, l ≠ [] → P (drop CHUNK_SIZE l) → P l) → ∀ l, P l.
Proof.
  intros Hnil Hstep l.
  remember (length l) as n eqn:Hn. revert l Hn.
  induction (lt_wf n) as [n _ IH]. intros l ->.
  destruct l as [|x l]; [done|]. apply Hstep; [done|].
  apply (IH (length (drop CHUNK_SIZE (x :: l)))); [|done].
  rewrite length_drop. unfold CHUNK_SIZE. simpl. lia.
Qed.

Lemma concat_chunked l : concat (chunked l) = l.
Proof.
  induction l as [|l Hne IH] using chunked_ind; [done|].
  rewrite chunked_cons by done. simpl. rewrite IH. apply take_drop.
Qed.

Lemma length_chunked l :
  length (chunked l) = ((length l + 4) / CHUNK_SIZE)%nat.
Proof.
  unfold chunked. generalize ((length l + 4) / CHUNK_SIZE)%nat as k.
  intros k. revert l. induction k as [|k IH]; intros l; simpl; [done|].
  by rewrite IH.
Qed.

Lemma chunksN_lookup k l i c :
  chunksN k l !! i = Some c → c = take CHUNK_SIZE (drop (CHUNK_SIZE * i) l).
Proof.
  revert l i. induction k as [|k IH]; intros l i; simpl; [done|].
  destruct i as [|i]; simpl.
  - by intros [= <-].
  - intros ->%IH. rewrite drop_drop. do 2 f_equal. unfold CHUNK_SIZE. lia.
Qed.

(** Every chunk is a run of at most five consecutive elements, and of
    exactly five unless it is the last one. *)
Lemma chunked_lookup l i c :
  chunked l !! i = Some c →
  c = take CHUNK_SIZE (drop (CHUNK_SIZE * i) l) ∧
  (1 ≤ length c ≤ CHUNK_SIZE)%nat ∧
  (S i < length (chunked l) → length c = CHUNK_SIZE)%nat.
Proof.
  intros Hi. pose proof (lookup_lt_Some _ _ _ Hi) as Hlt.
  rewrite length_chunked in *. unfold chunked in Hi.
  apply chunksN_lookup in Hi as ->.
  rewrite length_take, length_drop. unfold CHUNK_SIZE in *.
  split; [done|]. apply ceil5_lt in Hlt as Hlt'.
  split; [lia|]. intros ?%ceil5_full. lia.
Qed.
End ChunkFacts.

Lemma elem_of_concat {A} (ls : list (list A)) (x : A) :
  x ∈ concat ls ↔ ∃ l, l ∈ ls ∧ x ∈ l.
Proof.
  rewrite list_elem_of_In, in_concat.
  split; intros (l & Hl & Hx); exists l; by rewrite ?list_elem_of_In in *.
Qed.

Section ScheduleFacts.
Variable log : nat → Period → list event.
Hypothesis log_quiet : ∀ n p e, e ∈ log n p → isSchedule e = false.

Lemma filter_logs i (c : list Period) :
  filter (λ e, isSchedule e = true) (concat (imap (λ index, log (i + index)%nat) c))
  = [].
Proof.
  apply filter_none, Forall_forall. intros e Hin.
  apply elem_of_concat in Hin as (es & Hes & He).
  apply list_elem_of_lookup in Hes as [j Hj].
  rewrite list_lookup_imap in Hj.
  destruct (c !! j) as [p|]; [|done]. simpl in Hj. simplify_eq.
  by rewrite (log_quiet _ _ _ He).
Qed.

Lemma traceOf_schedule i chunks :
  filter (λ e, isSchedule e = true) (traceOf log i chunks) = schedule chunks.
Proof.
  revert i. induction chunks as [|c rest IH]; intros i; [done|].
  cbn [traceOf schedule]. rewrite filter_cons_True by done.
  rewrite !filter_app, filter_logs, IH. f_equal.
  destruct rest as [|c' rest]; [done|].
  by rewrite filter_cons_True by done.
Qed.

Lemma submitted_schedule chunks : submitted (schedule chunks) = chunks.
Proof.
  induction chunks as [|c rest IH]; [done|].
  cbn [schedule]. destruct rest as [|c' rest]; [done|].
  unfold submitted in *. cbn [omap list_omap]. by rewrite IH.
Qed.

Lemma submitted_filter trace :
  submitted (filter (λ e, isSchedule e = true) trace) = submitted trace.
Proof.
  unfold submitted. induction trace as [|e trace IH]; [done|].
  destruct e.
  - rewrite filter_cons_True by done. cbn [omap list_omap]. by rewrite IH.
  - rewrite filter_cons_False by done. done.
  - rewrite filter_cons_False by done. done.
  - rewrite filter_cons_True by done. done.
Qed.

Lemma delays_schedule chunks :
  length (filter (λ e, isDelay e = true) (schedule chunks))
  = (length chunks - 1)%nat.
Proof.
  induction chunks as [|c rest IH]; [done|].
  cbn [schedule]. rewrite filter_cons_False by done.
  destruct rest as [|c' rest]; [done|].
  rewrite filter_cons_True by done.
  cbn [length] in *. rewrite IH. lia.
Qed.

Lemma delays_filter (trace : list event) :
  filter (λ e, isDelay e = true) (filter (λ e, isSchedule e = true) trace)
  = filter (λ e, isDelay e = true) trace.
Proof.
  rewrite list_filter_filter. apply list_filter_iff.
  intros e. destruct e; simpl; naive_solver.
Qed.

Lemma traceOf_logs (l : list Period) i j p e :
  l !! j = Some p → e ∈ log (i + j)%nat p → e ∈ traceOf log i (chunked l).
Proof.
  revert i j. induction l as [|l Hne IH] using chunked_ind; intros i j Hj He.
  { done. }
  rewrite chunked_cons by done. cbn [traceOf].
  apply elem_of_cons. right. rewrite !elem_of_app.
  destruct (decide (j < CHUNK_SIZE)%nat) as [Hlt|Hge].
  - left. apply elem_of_concat. exists (log (i + j)%nat p). split; [|done].
    apply list_elem_of_lookup. exists j.
    rewrite list_lookup_imap, lookup_take_lt by done. by rewrite Hj.
  - right. right.
    replace (i + j)%nat with (i + CHUNK_SIZE + (j - CHUNK_SIZE))%nat in He by lia.
    apply (IH _ (j - CHUNK_SIZE)%nat); [|done].
    rewrite lookup_drop. by replace (CHUNK_SIZE + (j - CHUNK_SIZE))%nat with j by lia.
Qed.
End ScheduleFacts.

(** ** fetchProcessData *)
Section FetchFacts.
Variable respond : string → Period → Z → nat → outcome.
Variable processName : string.
Variable periods : list Period.
Variable currentHeight : Z.

Local Abbreviation request := (subRequest respond processName currentHeight).
Local Abbreviation loop := (chunkLoop respond processName periods currentHeight).

Lemma subRequest_quiet n p e : e ∈ (request n p).2 → isSchedule e = false.
Proof.
  unfold subRequest.
  destruct (respond processName p currentHeight n); simpl;
    rewrite ?list_elem_of_singleton; try by intros ->.
  by intros ?%elem_of_nil.
Qed.

Lemma subRequest_timestamp n p : timestamp (request n p).1 = endTime p.
Proof.
  unfold subRequest. by destruct (respond processName p currentHeight n).
Qed.

(** The loop from index [i] on: one point for every remaining period, and
    the events of the remaining chunks. *)
Lemma chunkLoop_from fuel i results trace :
  (length periods - i ≤ fuel)%nat →
  loop fuel i results trace =
    Some (results ++ imap (λ j p, (request (i + j) p).1) (drop i periods),
          trace ++ traceOf (λ n p, (request n p).2) i (chunked (drop i periods))).
Proof.
  revert i results trace.
  induction fuel as [|fuel IH]; intros i results trace Hfuel.
  - simpl. rewrite decide_False by lia.
    rewrite drop_ge by lia. by rewrite chunked_nil, !app_nil_r.
  - simpl. destruct (decide (i < length periods)%nat) as [Hlt|Hge].
    2:{ rewrite drop_ge by lia. by rewrite chunked_nil, !app_nil_r. }
    rewrite IH by (unfold CHUNK_SIZE; lia). clear IH.
    set (rest := drop i periods).
    assert (rest ≠ []) as Hrest.
    { intros Heq%(f_equal length). unfold rest in Heq.
      rewrite length_drop in Heq. simpl in Heq. lia. }
    assert (slice i (i + CHUNK_SIZE) periods = take CHUNK_SIZE rest) as ->.
    { unfold slice. fold rest. f_equal. lia. }
    assert (drop (i + CHUNK_SIZE) periods = drop CHUNK_SIZE rest) as ->.
    { unfold rest. by rewrite drop_drop. }
    rewrite (chunked_cons rest) by done. cbn [traceOf]. f_equal. f_equal.
    + rewrite <- app_assoc. f_equal. rewrite fmap_imap.
      rewrite <- (take_drop CHUNK_SIZE rest) at 3. rewrite imap_app. f_equal.
      apply imap_ext. intros j p Hj. simpl.
      apply lookup_lt_Some in Hj. rewrite length_drop in Hj.
      rewrite length_take_le by lia. by rewrite Nat.add_assoc.
    + rewrite fmap_imap.
      assert ((i + CHUNK_SIZE < length periods)%nat ↔
              chunked (drop CHUNK_SIZE rest) ≠ []) as Hmore.
      { rewrite chunked_eq_nil. unfold rest. rewrite drop_drop. split.
        - intros Hi Heq%(f_equal length). rewrite length_drop in Heq.
          simpl in Heq. lia.
        - intros Hne. destruct (decide (i + CHUNK_SIZE < length periods)%nat);
            [done|]. destruct Hne. apply drop_ge. lia. }
      destruct (chunked (drop CHUNK_SIZE rest)) as [|c cs] eqn:Hcs.
      * rewrite decide_False by (rewrite Hmore; tauto).
        cbn [traceOf]. by rewrite !app_nil_r.
      * rewrite decide_True by (by apply Hmore).
        by rewrite <- !app_assoc.
Qed.

Lemma fetchProcessData_miss now later cache :
  cacheLookup (minutes 10) now cache (processCacheKey processName periods) = None →
  fetchProcessData respond processName periods currentHeight now later cache =
    Some (imap (λ j p, (request j p).1) periods,
          cacheStore (processCacheKey processName periods)
            (imap (λ j p, (request j p).1) periods) later cache,
          traceOf (λ n p, (request n p).2) 0 (chunked periods)).
Proof.
  intros Hmiss. unfold fetchProcessData. rewrite Hmiss.
  by rewrite chunkLoop_from by lia.
Qed.

(** C6. A fetch that is not answered from the cache submits the periods in
    ceil(n / 5) chunks, in order: the chunks put end to end are the list of
    periods, every chunk has between one and five periods and every chunk
    but the last exactly five; the chunk submissions and delays of the
    trace are the chunks one after the other with one delay of 100 ms
    between two consecutive chunks and none after the last.  Twelve periods
    go in chunks of 5, 5 and 2 with two delays. *)
Theorem fetchProcessData_chunks now later cache :
  cacheLookup (minutes 10) now cache (processCacheKey processName periods) = None →
  ∃ results cache' trace,
    fetchProcessData respond processName periods currentHeight now later cache
      = Some (results, cache', trace) ∧
    let chunks := submitted trace in
    concat chunks = periods ∧
    length chunks = ((length periods + 4) / 5)%nat ∧
    (∀ i c, chunks !! i = Some c →
       c = slice (5 * i) (5 * i + 5) periods ∧
       (1 ≤ length c ≤ 5)%nat ∧
       (S i < length chunks → length c = 5)%nat) ∧
    filter (λ e, isSchedule e = true) trace = schedule chunks ∧
    length (filter (λ e, isDelay e = true) trace) = (length chunks - 1)%nat ∧
    (length periods = 12%nat →
       length <$> chunks = [5; 5; 2]%nat ∧
       length (filter (λ e, isDelay e = true) trace) = 2%nat).
Proof.
  intros Hmiss. rewrite (fetchProcessData_miss _ _ _ Hmiss).
  eexists _, _, _. split; [done|].
  set (trace := traceOf _ 0 (chunked periods)).
  assert (filter (λ e, isSchedule e = true) trace = schedule (chunked periods))
    as Hsched by (apply traceOf_schedule, subRequest_quiet).
  assert (submitted trace = chunked periods) as Hsub.
  { by rewrite <- submitted_filter, Hsched, submitted_schedule. }
  assert (length (filter (λ e, isDelay e = true) trace)
          = (length (chunked periods) - 1)%nat) as Hdelays.
  { by rewrite <- delays_filter, Hsched, delays_schedule. }
  cbv zeta. rewrite Hsub. split_and!.
  - apply concat_chunked.
  - apply length_chunked.
  - intros i c Hi. apply chunked_lookup in Hi as (-> & Hlen & Hfull).
    split; [|done]. unfold slice, CHUNK_SIZE. f_equal. lia.
  - done.
  - done.
  - intros H12. rewrite Hdelays, length_chunked, H12. split; [|done].
    unfold chunked. rewrite H12. simpl.
    rewrite !length_take, !length_drop, H12. done.
Qed.

(** C7. A fetch that is not answered from the cache always returns: one
    point for each period, in the order of the periods and with the
    period's end time.  A period whose sub-request fails (a rejected call,
    a response that is not ok, a body with GraphQL errors) gets count 0 and
    an error is logged for it; the other periods get the count of the
    response. *)
Theorem fetchProcessData_isolates_failures now later cache :
  cacheLookup (minutes 10) now cache (processCacheKey processName periods) = None →
  ∃ results cache' trace,
    fetchProcessData respond processName periods currentHeight now later cache
      = Some (results, cache', trace) ∧
    length results = length periods ∧
    timestamp <$> results = endTime <$> periods ∧
    ∀ i period, periods !! i = Some period →
      match respond processName period currentHeight i with
      | Transactions n => results !! i = Some (mkPoint (endTime period) n)
      | GraphQLErrors =>
          results !! i = Some (mkPoint (endTime period) (Some 0)) ∧
          GraphQLErrorsLogged processName ∈ trace
      | BadStatus _ | Threw =>
          results !! i = Some (mkPoint (endTime period) (Some 0)) ∧
          FetchErrorLogged processName i ∈ trace
      end.
Proof.
  intros Hmiss. rewrite (fetchProcessData_miss _ _ _ Hmiss).
  eexists _, _, _. split; [done|]. split_and!.
  - apply length_imap.
  - rewrite fmap_imap. rewrite <- (imap_const endTime).
    apply imap_ext. intros j p _. apply subRequest_timestamp.
  - intros i period Hi. rewrite list_lookup_imap, Hi. simpl.
    pose proof (traceOf_logs (λ n p, (request n p).2) periods 0 i period) as Hlog.
    specialize (λ e, Hlog e Hi). simpl in Hlog. unfold subRequest in *.
    destruct (respond processName period currentHeight i); simpl in *.
    + split; [done|]. apply Hlog. left.
    + split; [done|]. apply Hlog. left.
    + split; [done|]. apply Hlog. left.
    + done.
Qed.
End FetchFacts.

Section FetchExamples.
Import Sample.

Lemma fetchProcessData_chunks_witness :
  ∃ results cache' trace,
    fetchProcessData network "wARTransfer" twelve 100 0 5 ∅
      = Some (results, cache', trace) ∧
    length <$> submitted trace = [5; 5; 2]%nat ∧
    length (filter (λ e, isDelay e = true) trace) = 2%nat.
Proof.
  destruct (fetchProcessData_chunks network "wARTransfer" twelve 100 0 5 ∅)
    as (results & cache' & trace & Hrun & _ & _ & _ & _ & _ & Htwelve).
  { reflexivity. }
  exists results, cache', trace. split; [exact Hrun|].
  apply Htwelve. reflexivity.
Defined.

Lemma fetchProcessData_isolates_failures_witness :
  ∃ results cache' trace,
    fetchProcessData network "wARTransfer" twelve 100 0 5 ∅
      = Some (results, cache', trace) ∧
    results !! 3%nat = Some (mkPoint (TNumber 4000) (Some 0)) ∧
    FetchErrorLogged "wARTransfer" 3 ∈ trace.
Proof.
  destruct (fetchProcessData_isolates_failures network "wARTransfer" twelve
              100 0 5 ∅)
    as (results & cache' & trace & Hrun & _ & _ & Hpoints).
  { reflexivity. }
  exists results, cache', trace. split; [exact Hrun|].
  exact (Hpoints 3%nat (period 4) eq_refl).
Defined.
End FetchExamples.

(** ** The response cache *)
Section CacheFacts.
Context {T : Type}.
Implicit Types (cache : gmap string (CacheEntry T)) (key : string).

Lemma cacheLookup_None ttl now cache key :
  cacheLookup ttl now cache key = None ↔
  cache !! key = None ∨
  ∃ e, cache !! key = Some e ∧ ttl ≤ now - entry_timestamp e.
Proof.
  unfold cacheLookup. destruct (cache !! key) as [e|]; [|naive_solver].
  case_decide.
  - split; [done|]. intros [?|(e' & [= <-] & ?)]; [done|lia].
  - split; [|done]. intros _. right. exists e. split; [done|lia].
Qed.

Lemma cacheLookup_Some ttl now cache key d :
  cacheLookup ttl now cache key = Some d ↔
  ∃ e, cache !! key = Some e ∧ entry_data e = d ∧
       now - entry_timestamp e < ttl.
Proof.
  unfold cacheLookup. destruct (cache !! key) as [e|]; [|naive_solver].
  case_decide; [|naive_solver lia]. split.
  - intros [= <-]. by exists e.
  - by intros (e' & [= <-] & <- & _).
Qed.

(** C8, as the code has it.  A read gives nothing exactly when the key has
    no entry or the entry's age is at least the TTL; what it gives is the
    data of an entry younger than the TTL.  A write replaces whatever entry
    the key had and leaves the other keys alone.  [fetchNetworkInfo]
    answers from an entry younger than five minutes without touching the
    cache, and otherwise stores the fetched body over the old entry. *)
Theorem cache_read_write ttl now cache key :
  (cacheLookup ttl now cache key = None ↔
     cache !! key = None ∨
     ∃ e, cache !! key = Some e ∧ ttl ≤ now - entry_timestamp e) ∧
  (∀ d, cacheLookup ttl now cache key = Some d →
     ∃ e, cache !! key = Some e ∧ entry_data e = d ∧
          ¬ (ttl ≤ now - entry_timestamp e)) ∧
  (∀ d later, cacheStore key d later cache !! key = Some (mkEntry d later)) ∧
  (∀ d later key', key' ≠ key →
     cacheStore key d later cache !! key' = cache !! key') ∧
  (∀ later net d, cacheLookup (minutes 5) now cache "network-info" = Some d →
     fetchNetworkInfo now later net cache = (Some d, cache)) ∧
  (∀ later body, cacheLookup (minutes 5) now cache "network-info" = None →
     fetchNetworkInfo now later (Json body) cache
     = (Some body, <["network-info" := mkEntry body later]> cache)).
Proof.
  split_and!.
  - apply cacheLookup_None.
  - intros d (e & ? & ? & ?)%cacheLookup_Some. exists e. split_and!; [done..|lia].
  - intros d later. apply lookup_insert_eq.
  - intros d later key' Hne. by apply lookup_insert_ne.
  - intros later net d Hhit. unfold fetchNetworkInfo. by rewrite Hhit.
  - intros later body Hmiss. unfold fetchNetworkInfo. by rewrite Hmiss.
Qed.
End CacheFacts.

Section CacheExamples.
(** C8, as stated, fails: an entry that is exactly five minutes old has an
    age that does not exceed the TTL, and is not returned. *)
Lemma entry_at_ttl_not_returned :
  let cache : gmap string (CacheEntry Z) := cacheStore "network-info" 7 0 ∅ in
  let now := minutes 5 in
  cache !! "network-info"%string = Some (mkEntry 7 0) ∧
  ¬ (now - 0 > minutes 5) ∧
  cacheLookup (minutes 5) now cache "network-info" = None ∧
  fetchNetworkInfo now now (Json 8) cache
    = (Some 8, cacheStore "network-info" 8 now cache) ∧
  ¬ (cacheLookup (minutes 5) now cache "network-info" = None ↔
       cache !! "network-info"%string = None ∨
       ∃ e, cache !! "network-info"%string = Some e ∧
            now - entry_timestamp e > minutes 5).
Proof.
  intros cache now.
  assert (cache !! "network-info"%string = Some (mkEntry 7 0)) as Hentry
    by apply lookup_insert_eq.
  assert (cacheLookup (minutes 5) now cache "network-info" = None) as Hmiss.
  { unfold cacheLookup. by rewrite Hentry. }
  split_and!; [done|by vm_compute|done| |].
  - unfold fetchNetworkInfo. by rewrite Hmiss.
  - intros [Hclaim _]. destruct (Hclaim Hmiss) as [Hnone|(e & He & Hage)].
    + by rewrite Hentry in Hnone.
    + rewrite Hentry in He. injection He as <-. by vm_compute in Hage.
Qed.

Lemma cache_read_write_witness :
  let cache : gmap string (CacheEntry Z) := cacheStore "network-info" 7 0 ∅ in
  ∃ e, cache !! "network-info"%string = Some e ∧ entry_data e = 7 ∧
       ¬ (minutes 5 ≤ minutes 5 - 1 - entry_timestamp e).
Proof.
  intros cache.
  apply (proj1 (proj2 (cache_read_write (minutes 5) (minutes 5 - 1) cache
                         "network-info")) 7).
  reflexivity.
Defined.
End CacheExamples.

(** ** Numbers and dates *)
Section NumberFacts.
Lemma roundToDouble_exact z : Z.abs z < 2 ^ 53 → roundToDouble z = Integer z.
Proof. intros Hz. unfold roundToDouble. by rewrite decide_True. Qed.

(** Rounding does not take a Number below a double that it is not below. *)
Lemma roundToDouble_atLeast B z :
  B ≤ 2 ^ 53 → B ≤ Z.abs z → atLeast B (roundToDouble z).
Proof.
  intros HB Hz. unfold roundToDouble.
  destruct (decide (Z.abs z < 2 ^ 53)) as [|Hbig]; [done|].
  set (a := Z.abs z) in *.
  assert (53 ≤ Z.log2 a) as Hlog.
  { rewrite <- (Z.log2_pow2 53) by lia. apply Z.log2_le_mono. lia. }
  set (e := Z.log2 a - 52).
  assert (0 < 2 ^ e) as Hpos by (apply Z.pow_pos_nonneg; lia).
  assert (2 ≤ 2 ^ e) as Htwo.
  { change 2 with (2 ^ 1) at 1. apply Z.pow_le_mono_r; lia. }
  assert (2 ^ 52 ≤ a / 2 ^ e) as Hq.
  { apply Z.div_le_lower_bound; [done|].
    rewrite Z.mul_comm, <- Z.pow_add_r by lia.
    replace (52 + e) with (Z.log2 a) by lia.
    apply Z.log2_spec. lia. }
  set (q := a / 2 ^ e) in *.
  set (q' := if decide (a `mod` 2 ^ e < 2 ^ (e - 1)) then q
             else if decide (2 ^ (e - 1) < a `mod` 2 ^ e) then q + 1
             else if Z.even q then q else q + 1).
  assert (q ≤ q') as Hq' by (unfold q'; repeat case_decide; try destruct (Z.even q); lia).
  destruct (decide (q' * 2 ^ e < 2 ^ 1024)); [|done].
  simpl. assert (2 ^ 53 ≤ q' * 2 ^ e) as Hres.
  { change (2 ^ 53) with (2 ^ 52 * 2). apply Z.mul_le_mono_nonneg; lia. }
  assert (z ≠ 0) by (unfold a in Hbig; lia).
  destruct (decide (0 < z)); [rewrite Z.sgn_pos by done|rewrite Z.sgn_neg by lia];
    lia.
Qed.

Lemma times_atLeast B c n :
  0 ≤ B → 0 < c → B * c ≤ 2 ^ 53 → atLeast B n → atLeast (B * c) (times n c).
Proof.
  intros HB Hc Hbound Hn. destruct n as [| |z]; [done|done|]. simpl in *.
  apply roundToDouble_atLeast; [done|]. rewrite Z.abs_mul. nia.
Qed.

Lemma dateOfNumber_atLeast B n :
  8640000000000000 < B → atLeast B n → dateOfNumber n = None.
Proof.
  intros HB Hn. destruct n as [| |z]; [done|done|]. simpl in *.
  by rewrite decide_False by lia.
Qed.

(** A day number within the range of [Date]: both products are exact. *)
Lemma day_in_range k :
  Z.abs k ≤ 100000000 →
  dateOfNumber (times (Integer k) 86400000) = Some (k * 86400000) ∧
  dateOfNumber (times (times (times (times (Integer k) 24) 60) 60) 1000)
  = Some (k * 86400000).
Proof.
  intros Hk.
  assert (∀ z, Z.abs z ≤ 8640000000000000 → roundToDouble z = Integer z)
    as Hexact.
  { intros z Hz. apply roundToDouble_exact.
    assert (8640000000000000 < 2 ^ 53) by done. lia. }
  simpl. rewrite !Hexact by lia. simpl. rewrite !Hexact by lia. simpl.
  rewrite !Hexact by lia. simpl. rewrite !Hexact by lia. simpl.
  rewrite !decide_True by lia. split; [done|]. f_equal. lia.
Qed.

(** Any other Number, NaN and the infinities included, gives an Invalid
    Date. *)
Lemma day_out_of_range n :
  (∀ k, n = Integer k → 100000000 < Z.abs k) →
  dateOfNumber (times n 86400000) = None ∧
  dateOfNumber (times (times (times (times n 24) 60) 60) 1000) = None.
Proof.
  intros Hn. destruct n as [| |k]; [done|done|].
  assert (atLeast 100000001 (Integer k)) as Hk.
  { simpl. specialize (Hn k eq_refl). lia. }
  split.
  - apply (dateOfNumber_atLeast (100000001 * 86400000)); [done|].
    by apply times_atLeast.
  - apply (dateOfNumber_atLeast (100000001 * 24 * 60 * 60 * 1000)); [done|].
    repeat (apply times_atLeast; [done|done|done|]). done.
Qed.
End NumberFacts.

(** ** The day-number adapter *)
Section DayNumber.
Lemma streakData_elem_of entries out d :
  streakData entries = Some out → d ∈ out →
  ∃ b, (day d, b) ∈ entries ∧ timestampMs (day d) = Some (streakTime d).
Proof.
  unfold streakData. intros Hout Hd.
  apply bind_Some in Hout as (pushed & Hpushed & [= <-]).
  apply list_elem_of_fmap in Hd as (d' & -> & Hd'). simpl.
  rewrite sort_perm in Hd'.
  apply list_elem_of_lookup in Hd' as [i Hi].
  apply mapM_Some_1 in Hpushed.
  destruct (Forall2_lookup_r _ _ _ _ _ Hpushed Hi) as ([key b] & He & Hconv).
  simpl in Hconv. apply fmap_Some in Hconv as (ms & Hms & ->). simpl.
  exists b. split; [|done]. apply list_elem_of_lookup. by exists i.
Qed.

(** The date of a key that reads as the integer [k]. *)
Lemma timestampMs_Integer key k :
  parseInt key None = Integer k →
  timestampMs key =
    if decide (Z.abs k ≤ 100000000) then Some (k * 86400000) else None.
Proof.
  intros Hk. unfold timestampMs. rewrite Hk. case_decide.
  - by apply day_in_range.
  - apply (day_out_of_range (Integer k)). intros ? [= <-]. lia.
Qed.

Lemma dayNumberDate_Integer key k :
  parseInt key (Some 10) = Integer k →
  dayNumberDate key =
    if decide (Z.abs k ≤ 100000000) then Some (k * 86400000) else None.
Proof.
  intros Hk. unfold dayNumberDate. rewrite Hk. case_decide.
  - by apply day_in_range.
  - apply (day_out_of_range (Integer k)). intros ? [= <-]. lia.
Qed.

(** A key has a date only if it reads as a day number in the range of
    [Date]. *)
Lemma timestampMs_Some key t :
  timestampMs key = Some t →
  ∃ k, parseInt key None = Integer k ∧ Z.abs k ≤ 100000000 ∧ t = k * 86400000.
Proof.
  intros Ht. destruct (parseInt key None) as [| |k] eqn:Hk.
  - unfold timestampMs in Ht. by rewrite Hk in Ht.
  - unfold timestampMs in Ht. by rewrite Hk in Ht.
  - rewrite (timestampMs_Integer key k Hk) in Ht. case_decide; [|done].
    exists k. by simplify_eq.
Qed.

Lemma dayNumberDate_Some key t :
  dayNumberDate key = Some t →
  ∃ k, parseInt key (Some 10) = Integer k ∧ Z.abs k ≤ 100000000 ∧
       t = k * 86400000.
Proof.
  intros Ht. destruct (parseInt key (Some 10)) as [| |k] eqn:Hk.
  - unfold dayNumberDate in Ht. by rewrite Hk in Ht.
  - unfold dayNumberDate in Ht. by rewrite Hk in Ht.
  - rewrite (dayNumberDate_Integer key k Hk) in Ht. case_decide; [|done].
    exists k. by simplify_eq.
Qed.

(** C5, as the code has it.  Both adapters turn a key that reads as the
    day number [k], for [k] from -100000000 to 100000000 (the days that a
    [Date] can hold), into the time value [k * 86400000], which is
    00:00:00.000 UTC of day [k], and throw for a day number beyond that
    range; the timestamp of every element that fetchRuneRealmStats builds
    is that of its key; the key 20226 gives 1747526400000. *)
Theorem day_number_timestamp (key : string) (k : Z) :
  (Z.abs k ≤ 100000000 → parseInt key None = Integer k →
     timestampMs key = Some (k * 86400000)) ∧
  (Z.abs k ≤ 100000000 → parseInt key (Some 10) = Integer k →
     dayNumberDate key = Some (k * 86400000)) ∧
  (100000000 < Z.abs k → parseInt key None = Integer k →
     timestampMs key = None) ∧
  (100000000 < Z.abs k → parseInt key (Some 10) = Integer k →
     dayNumberDate key = None) ∧
  Day (k * 86400000) = k ∧
  TimeWithinDay (k * 86400000) = 0 ∧
  (∀ entries out d, streakData entries = Some out → d ∈ out →
     day d = key → parseInt key None = Integer k →
     streakTime d = k * 86400000) ∧
  timestampMs "20226" = Some 1747526400000 ∧
  dayNumberDate "20226" = Some 1747526400000.
Proof.
  split_and!.
  - intros Hrange Hk. rewrite (timestampMs_Integer key k Hk).
    by rewrite decide_True.
  - intros Hrange Hk. rewrite (dayNumberDate_Integer key k Hk).
    by rewrite decide_True.
  - intros Hrange Hk. rewrite (timestampMs_Integer key k Hk).
    by rewrite decide_False by lia.
  - intros Hrange Hk. rewrite (dayNumberDate_Integer key k Hk).
    by rewrite decide_False by lia.
  - unfold Day, msPerDay. by apply Z.div_mul.
  - unfold TimeWithinDay, msPerDay. by apply Z.mod_mul.
  - intros entries out d Hout Hd <- Hk.
    destruct (streakData_elem_of _ _ _ Hout Hd) as (b & _ & Hms).
    apply timestampMs_Some in Hms as (k' & Hk' & _ & ->). congruence.
  - reflexivity.
  - reflexivity.
Qed.

(** C5, as stated, fails: 20226 * 86400000 is 1747526400000, and
    1748390400000 is the timestamp of day 20236. *)
Lemma day_20226_is_not_1748390400000 :
  20226 * 86400000 ≠ 1748390400000 ∧
  timestampMs "20226" ≠ Some 1748390400000 ∧
  dayNumberDate "20226" ≠ Some 1748390400000 ∧
  timestampMs "20236" = Some 1748390400000.
Proof. by vm_compute. Qed.

Lemma day_number_timestamp_witness :
  timestampMs "20226" = Some (20226 * 86400000) ∧
  dayNumberDate "20226" = Some (20226 * 86400000) ∧
  timestampMs "100000001" = None ∧
  dayNumberDate "100000001" = None.
Proof.
  split_and!.
  - apply (proj1 (day_number_timestamp "20226" 20226)); [lia|reflexivity].
  - apply (proj1 (proj2 (day_number_timestamp "20226" 20226)));
      [lia|reflexivity].
  - apply (proj1 (proj2 (proj2 (day_number_timestamp "100000001" 100000001))));
      [lia|reflexivity].
  - apply (proj1 (proj2 (proj2 (proj2
             (day_number_timestamp "100000001" 100000001)))));
      [lia|reflexivity].
Defined.
End DayNumber.

Section AlignmentExamples.
Lemma updateStandardCombinedChart_aligned_witness :
  let A := [mkPoint (TString 1000) (Some 5)] in
  let B := [mkPoint (TString 2000) (Some 3)] in
  let chart := updateStandardCombinedChart pretty id "wUSDCTransfer"
                 "USDATransfer" A B in
  uniqueTimestamps A B = [TString 1000; TString 2000] ∧
  primaryValues chart = [Some 5; None] ∧
  secondaryValues chart = [None; Some 3].
Proof.
  intros A B chart.
  apply (proj2 (proj2 (proj2 (proj2 (proj2 (proj2 (proj2
           (updateStandardCombinedChart_aligned pretty id "wUSDCTransfer"
              "USDATransfer" A B)))))))
         (TString 1000) (TString 2000) (Some 5) (Some 3)).
  - reflexivity.
  - reflexivity.
  - discriminate.
  - by vm_compute.
Defined.
End AlignmentExamples.


(** * Further properties of api.js *)
Import Fetchers Terms.

Section CacheCycle.
Context {T : Type}.
Implicit Types (cache : gmap string (CacheEntry T)) (key : string).

Lemma cacheLookup_store ttl now later cache key (d : T) :
  cacheLookup ttl now (cacheStore key d later cache) key =
    if decide (now - later < ttl) then Some d else None.
Proof. unfold cacheLookup, cacheStore. by rewrite lookup_insert_eq. Qed.

Lemma cacheLookup_data ttl now cache key (d : T) :
  cacheLookup ttl now cache key = Some d →
  ∃ e, cache !! key = Some e ∧ entry_data e = d.
Proof. intros (e & ? & ? & _)%cacheLookup_Some. by exists e. Qed.

Lemma cacheStore_data later cache key (d : T) :
  ∃ e, cacheStore key d later cache !! key = Some e ∧ entry_data e = d.
Proof. eexists. split; [apply lookup_insert_eq|done]. Qed.

(** X1. A body that fetchNetworkInfo has fetched is served again, without
    the network and without a change of the cache, as long as less than
    five minutes have passed since it was stored; after [clearCache] the
    next call goes to the network again, and a failure there is an error
    that leaves the cache empty. *)
Theorem fetchNetworkInfo_cache_cycle now later body cache :
  cacheLookup (minutes 5) now cache "network-info" = None →
  let first := fetchNetworkInfo now later (Json body) cache in
  first.1 = Some body ∧
  (∀ now' later' net', now' - later < minutes 5 →
     fetchNetworkInfo now' later' net' first.2 = (Some body, first.2)) ∧
  (∀ now' later' body', minutes 5 ≤ now' - later →
     fetchNetworkInfo now' later' (Json body') first.2
     = (Some body', cacheStore "network-info" body' later' first.2)) ∧
  (∀ now' later' body',
     fetchNetworkInfo now' later' (Json body') (clearCache first.2)
     = (Some body', cacheStore "network-info" body' later' ∅)) ∧
  (∀ now' later' net', (∀ body', net' ≠ Json body') →
     fetchNetworkInfo now' later' net' (clearCache first.2) = (None, ∅)).
Proof.
  intros Hmiss first.
  assert (first = (Some body, cacheStore "network-info" body later cache))
    as -> by (unfold first, fetchNetworkInfo; by rewrite Hmiss).
  simpl. split_and!.
  - done.
  - intros now' later' net' Hfresh. unfold fetchNetworkInfo.
    rewrite cacheLookup_store. by rewrite decide_True.
  - intros now' later' body' Hstale. unfold fetchNetworkInfo.
    rewrite cacheLookup_store. by rewrite decide_False by lia.
  - done.
  - intros now' later' net' Hfail. unfold fetchNetworkInfo, clearCache.
    destruct net' as [| |body']; try done. by destruct (Hfail body').
Qed.
End CacheCycle.

Section FetcherCache.
Ltac fetch_cases Hhit :=
  repeat (match goal with
          | |- context [match ?x with _ => _ end] => destruct x eqn:?
          end; simpl in *; simplify_eq);
  try done;
  try (by eapply cacheLookup_data);
  try (by apply cacheStore_data).

(** X2. Every fetch function keeps the cache in step with what it returns:
    returned data is what the cache holds under the function's key
    afterwards, and a call of fetchNetworkInfo or of one of the four dryrun
    fetchers that ends in an error leaves the cache as it was.
    fetchProcessData never ends in an error: it always returns points, and
    it leaves the cache as it was (a hit) or stores exactly the points that
    it returns, the points of failed requests among them. *)
Theorem fetchers_keep_cache_coherent {T S : Type}
    (parseBlocks : string → option (list Block))
    (parseSupply : string → option S)
    (parseRaw : string → option RawData)
    (parseDaily : string → option (list (string * option Z)))
    (parseToday : string → option TodayStats)
    (Number : string → option Z)
    (respond : string → Period → Z → nat → outcome)
    (now later : Z) (net : settled (option DryrunResult)) :
  (∀ (reply : reply T) cache,
     coherent "network-info" cache (fetchNetworkInfo now later reply cache)) ∧
  (∀ cache,
     coherent "block-history" cache
       (fetchBlockHistory parseBlocks now later net cache)) ∧
  (∀ cache,
     coherent "supply-history" cache
       (fetchSupplyHistory parseSupply now later net cache)) ∧
  (∀ cache,
     coherent "runerealm-stats" cache
       (fetchRuneRealmStats parseRaw now later net cache)) ∧
  (∀ cache,
     coherent "stargrid-history" cache
       (fetchStargridStats parseDaily parseToday Number now later net cache)) ∧
  (∀ processName periods currentHeight cache,
     ∃ results cache' trace,
       fetchProcessData respond processName periods currentHeight now later
         cache = Some (results, cache', trace) ∧
       coherent (processCacheKey processName periods) cache
         (Some results, cache') ∧
       (cache' = cache ∨
        cache' = cacheStore (processCacheKey processName periods) results
                   later cache)).
Proof.
  split_and!.
  - intros reply cache. unfold coherent, fetchNetworkInfo. fetch_cases idtac.
  - intros cache. unfold coherent, fetchBlockHistory. fetch_cases idtac.
  - intros cache. unfold coherent, fetchSupplyHistory. fetch_cases idtac.
  - intros cache. unfold coherent, fetchRuneRealmStats. fetch_cases idtac.
  - intros cache. unfold coherent, fetchStargridStats. fetch_cases idtac.
  - intros processName periods currentHeight cache.
    destruct (cacheLookup (minutes 10) now cache
                (processCacheKey processName periods)) as [d|] eqn:Hlook.
    + exists d, cache, []. unfold fetchProcessData. rewrite Hlook.
      split_and!; [done| |by left]. by eapply cacheLookup_data.
    + rewrite (fetchProcessData_miss _ _ _ _ _ _ _ Hlook).
      eexists _, _, _. split_and!; [done| |by right]. apply cacheStore_data.
Qed.
End FetcherCache.

Section FetchTwice.
Ltac stored_on_miss Hmiss Hrun :=
  rewrite Hmiss in Hrun;
  repeat (match type of Hrun with
          | context [match ?x with _ => _ end] => destruct x eqn:?
          end; simpl in *; simplify_eq);
  rewrite cacheLookup_store; by rewrite decide_True.

(** X3. What fetchBlockHistory, fetchSupplyHistory, fetchRuneRealmStats or
    fetchStargridStats has fetched and returned is returned again by the
    next call made before the function's time to live (15, 30, 20 and 15
    minutes) has passed since it was stored, whatever the network would
    answer then, and the cache stays as it is. *)
Theorem dryrun_fetchers_repeat {S : Type}
    (parseBlocks : string → option (list Block))
    (parseSupply : string → option S)
    (parseRaw : string → option RawData)
    (parseDaily : string → option (list (string * option Z)))
    (parseToday : string → option TodayStats)
    (Number : string → option Z)
    (now later now' later' : Z) (net net' : settled (option DryrunResult)) :
  (∀ cache d cache',
     cacheLookup (minutes 15) now cache "block-history" = None →
     fetchBlockHistory parseBlocks now later net cache = (Some d, cache') →
     now' - later < minutes 15 →
     fetchBlockHistory parseBlocks now' later' net' cache' = (Some d, cache')) ∧
  (∀ cache d cache',
     cacheLookup (minutes 30) now cache "supply-history" = None →
     fetchSupplyHistory parseSupply now later net cache = (Some d, cache') →
     now' - later < minutes 30 →
     fetchSupplyHistory parseSupply now' later' net' cache' = (Some d, cache')) ∧
  (∀ cache d cache',
     cacheLookup (minutes 20) now cache "runerealm-stats" = None →
     fetchRuneRealmStats parseRaw now later net cache = (Some d, cache') →
     now' - later < minutes 20 →
     fetchRuneRealmStats parseRaw now' later' net' cache' = (Some d, cache')) ∧
  (∀ cache d cache',
     cacheLookup (minutes 15) now cache "stargrid-history" = None →
     fetchStargridStats parseDaily parseToday Number now later net cache
       = (Some d, cache') →
     now' - later < minutes 15 →
     fetchStargridStats parseDaily parseToday Number now' later' net' cache'
       = (Some d, cache')).
Proof.
  split_and!; intros cache d cache' Hmiss Hrun Hfresh.
  - unfold fetchBlockHistory in *. stored_on_miss Hmiss Hrun.
  - unfold fetchSupplyHistory in *. stored_on_miss Hmiss Hrun.
  - unfold fetchRuneRealmStats in *. stored_on_miss Hmiss Hrun.
  - unfold fetchStargridStats in *. stored_on_miss Hmiss Hrun.
Qed.
End FetchTwice.

Section ProcessDataCache.
Lemma processCacheKey_heights name periods periods' :
  heights periods = heights periods' →
  processCacheKey name periods = processCacheKey name periods'.
Proof.
  intros Heq. unfold processCacheKey.
  set (text := λ h : Z * Z,
         quote +:+ pretty h.1 +:+ "-" +:+ pretty h.2 +:+ quote).
  assert (∀ ps, (λ p, quote +:+ pretty (startHeight p) +:+ "-"
                       +:+ pretty (endHeight p) +:+ quote) <$> ps
                = text <$> heights ps) as Htext.
  { intros ps. unfold heights. by rewrite <- list_fmap_compose. }
  by rewrite !Htext, Heq.
Qed.

(** X4. The cache key of fetchProcessData is made of the process name and
    the start and end heights only.  So within ten minutes of a fetch, a
    call for the same process and periods of the same heights sends no
    request, waits for nothing and returns the stored points, which carry
    the end times of the periods of the first call, whatever the end times,
    the current height and the network of the second call are. *)
Theorem fetchProcessData_served_from_cache
    (respond respond' : string → Period → Z → nat → outcome)
    (processName : string) (periods periods' : list Period)
    (currentHeight currentHeight' now later now' later' : Z)
    (cache : gmap string (CacheEntry (list DataPoint))) :
  cacheLookup (minutes 10) now cache (processCacheKey processName periods) = None →
  heights periods = heights periods' →
  now' - later < minutes 10 →
  ∃ results cache' trace,
    fetchProcessData respond processName periods currentHeight now later cache
      = Some (results, cache', trace) ∧
    timestamp <$> results = endTime <$> periods ∧
    fetchProcessData respond' processName periods' currentHeight' now' later'
      cache' = Some (results, cache', []).
Proof.
  intros Hmiss Hheights Hfresh.
  rewrite (fetchProcessData_miss _ _ _ _ _ _ _ Hmiss).
  eexists _, _, _. split; [done|]. split.
  - rewrite fmap_imap. rewrite <- (imap_const endTime).
    apply imap_ext. intros j p _. apply subRequest_timestamp.
  - unfold fetchProcessData.
    rewrite <- (processCacheKey_heights processName periods periods') by done.
    rewrite cacheLookup_store. by rewrite decide_True.
Qed.
End ProcessDataCache.

Lemma StronglySorted_mono {A} (R R' : relation A) (l : list A) :
  (∀ a b, R a b → R' a b) → StronglySorted R l → StronglySorted R' l.
Proof.
  intros Himpl. induction 1 as [|x l Hl IH Hx]; constructor; [done|].
  eapply Forall_impl; [exact Hx|]. auto.
Qed.

Section BlockHistoryFacts.
Variable JSON_parse : string → option (list Block).

(** X5. The blocks that fetchBlockHistory fetches and returns are the
    parsed content of the DailyBlocks tag of the first message, each block
    once, ordered from the latest date to the earliest. *)
Theorem fetchBlockHistory_sorted now later net cache d cache' :
  cacheLookup (minutes 15) now cache "block-history" = None →
  fetchBlockHistory JSON_parse now later net cache = (Some d, cache') →
  ∃ response message tags tag blockData,
    net = Resolves response ∧
    firstMessage response = Some message ∧
    Tags message = Some tags ∧
    findTag "DailyBlocks" tags = Some tag ∧
    tag_name tag = "DailyBlocks"%string ∧
    JSON_parse (tag_value tag) = Some blockData ∧
    d ≡ₚ blockData ∧
    StronglySorted (λ a b, date b ≤ date a) d.
Proof.
  intros Hmiss Hrun. unfold fetchBlockHistory in Hrun. rewrite Hmiss in Hrun.
  destruct net as [|response]; [done|].
  destruct (firstMessage response) as [message|] eqn:Hmsg; [|done].
  simpl in Hrun.
  destruct (Tags message) as [tags|] eqn:Htags; simpl in Hrun; [|done].
  destruct (findTag "DailyBlocks" tags) as [tag|] eqn:Htag; [|done].
  destruct (JSON_parse (tag_value tag)) as [blockData|] eqn:Hparse; [|done].
  injection Hrun as <- <-.
  exists response, message, tags, tag, blockData.
  split_and!; try done.
  - apply find_Some in Htag as [_ Hname]. by apply bool_decide_eq_true in Hname.
  - apply sort_perm.
  - eapply StronglySorted_mono;
      [|apply (sort_sorted (λ b, - date b) byDateDescending)].
    + simpl. intros a b. lia.
    + intros a b. unfold byDateDescending. lia.
Qed.
End BlockHistoryFacts.

Section StreakFacts.
Implicit Types (entries : list (string * Breakdown)) (out : list StreakDay).

Lemma streakData_Some entries out :
  streakData entries = Some out →
  ∃ pushed,
    Forall2 (λ e d, timestampMs e.1 = Some (streakTime d) ∧ day d = e.1 ∧
                    breakdowns d = e.2) entries pushed ∧
    out = (λ d, mkStreakDay (streakTime d) (day d) (withDefaults (breakdowns d)))
            <$> sort byStreakTime pushed.
Proof.
  unfold streakData. intros (pushed & Hpushed & [= <-])%bind_Some.
  exists pushed. split; [|done].
  apply mapM_Some_1 in Hpushed.
  eapply Forall2_impl; [exact Hpushed|].
  intros e d (ms & Hms & ->)%fmap_Some. by rewrite Hms.
Qed.

(** X6. The list that fetchRuneRealmStats builds from BreakdownByDay has
    one element for every key, in the order of their days; every element
    has all three of Low, Medium and High: the value of the response where
    it has one, and 0 where it has none. *)
Theorem streakData_sorted_with_defaults entries out :
  streakData entries = Some out →
  StronglySorted (λ a b, streakTime a ≤ streakTime b) out ∧
  day <$> out ≡ₚ entries.*1 ∧
  ∀ d, d ∈ out →
    ∃ b, (day d, b) ∈ entries ∧
         Low (breakdowns d) = Some (default 0 (Low b)) ∧
         Medium (breakdowns d) = Some (default 0 (Medium b)) ∧
         High (breakdowns d) = Some (default 0 (High b)).
Proof.
  intros (pushed & Hpushed & ->)%streakData_Some. split_and!.
  - apply (StronglySorted_fmap _ (λ a b, streakTime a ≤ streakTime b)
             (λ a b, streakTime a ≤ streakTime b)); [done|].
    apply (sort_sorted streakTime). by intros a b.
  - rewrite <- list_fmap_compose.
    rewrite (list_fmap_ext _ day (sort byStreakTime pushed)) by done.
    rewrite sort_perm.
    clear -Hpushed. induction Hpushed as [|e d entries pushed (_ & Hd & _) _ IH];
      [done|].
    csimpl. by rewrite Hd, IH.
  - intros d (d' & -> & Hd')%list_elem_of_fmap. rewrite sort_perm in Hd'.
    apply list_elem_of_lookup in Hd' as [i Hi].
    destruct (Forall2_lookup_r _ _ _ _ _ Hpushed Hi)
      as ([key b] & He & _ & Hday & Hb).
    simpl in *. exists b. rewrite Hday, Hb. split.
    { apply list_elem_of_lookup. by exists i. }
    unfold withDefaults, orZero. simpl.
    by destruct (Low b), (Medium b), (High b).
Qed.

Lemma readsAsDay_timestampMs key :
  readsAsDay key ↔ is_Some (timestampMs key).
Proof.
  split.
  - intros (k & Hk & Hrange). rewrite (timestampMs_Integer key k Hk).
    rewrite decide_True by done. by eexists.
  - intros [t (k & Hk & Hrange & _)%timestampMs_Some]. by exists k.
Qed.

(** X7. For a BreakdownByDay whose values are objects, building the list
    fails exactly when some key does not read, by [parseInt], as an
    integer from -100000000 to 100000000: such a key has no valid date and
    [toISOString] throws. *)
Theorem streakData_fails_iff entries :
  streakData entries = None ↔ Exists (λ e, ¬ readsAsDay e.1) entries.
Proof.
  assert (is_Some (streakData entries) ↔
          Forall (λ e, is_Some (timestampMs e.1)) entries) as Hok.
  { unfold streakData. split.
    - intros [out (pushed & Hpushed & _)%bind_Some].
      apply mapM_Some_1 in Hpushed.
      eapply Forall2_Forall_l; [exact Hpushed|]. apply Forall_forall.
      intros d _ e (ms & Hms & _)%fmap_Some. by eexists.
    - intros Hall. destruct (mapM _ entries) as [pushed|] eqn:Hpushed; [by eauto|].
      exfalso. assert (is_Some (mapM
        (λ e : string * Breakdown,
           (λ ms, mkStreakDay ms e.1 e.2) <$> timestampMs e.1) entries)) as [? Hs].
      { apply mapM_is_Some. eapply Forall_impl; [exact Hall|].
        intros e [t Ht]. simpl. rewrite Ht. by eexists. }
      congruence. }
  rewrite <- not_eq_None_Some in Hok. split.
  - intros Hnone. apply Exists_exists.
    destruct (decide (Forall (λ e, is_Some (timestampMs e.1)) entries))
      as [Hall|Hnot].
    + by apply Hok in Hall.
    + apply not_Forall_Exists in Hnot; [|apply _].
      apply Exists_exists in Hnot as (e & He & Hne). exists e. split; [done|].
      by rewrite readsAsDay_timestampMs.
  - intros (e & He & Hnot)%Exists_exists.
    destruct (streakData entries) eqn:Hs; [|done].
    assert (Forall (λ e, is_Some (timestampMs e.1)) entries) as Hall.
    { apply Hok. congruence. }
    rewrite Forall_forall in Hall. destruct Hnot.
    apply readsAsDay_timestampMs. by apply Hall.
Qed.
End StreakFacts.

Section StargridFacts.
Variable JSON_parse_daily : string → option (list (string * option Z)).
Variable JSON_parse_today : string → option TodayStats.
Variable Number : string → option Z.

Lemma dailyPoints_iso raw data :
  dailyPoints Number raw = Some data →
  Forall isoStamped data ∧ length data = length raw.
Proof.
  unfold dailyPoints. intros Hdata%mapM_Some_1. split.
  - eapply Forall2_Forall_r; [exact Hdata|]. apply Forall_forall.
    intros e _ p (ms & _ & ->)%fmap_Some. by exists ms.
  - symmetry. by eapply Forall2_length.
Qed.

Lemma usableItems_iso (l : list DataPoint) :
  Forall isoStamped l → usableItems (ItemPoint <$> l) = l.
Proof.
  unfold usableItems. induction 1 as [|p l [ms Hp] _ IH]; [done|].
  csimpl. rewrite Hp. simpl. by rewrite IH.
Qed.

(** X8. The points that fetchStargridStats fetches and returns are in
    order of time, and each has an ISO text as timestamp; so none of them,
    not even one at the Unix epoch, is a point that removeDuplicateDates
    skips for a falsy timestamp. *)
Theorem fetchStargridStats_sorted now later net cache d cache' :
  cacheLookup (minutes 15) now cache "stargrid-history" = None →
  fetchStargridStats JSON_parse_daily JSON_parse_today Number now later net
    cache = (Some d, cache') →
  StronglySorted (λ a b, timeOf a ≤ timeOf b) d ∧
  Forall isoStamped d ∧
  usableItems (ItemPoint <$> d) = d.
Proof.
  intros Hmiss Hrun. unfold fetchStargridStats in Hrun. rewrite Hmiss in Hrun.
  assert (∃ data, d = sort byTime data ∧ Forall isoStamped data)
    as (data & -> & Hiso).
  { repeat (match type of Hrun with
            | context [match ?x with _ => _ end] => destruct x eqn:?
            end; simpl in *; simplify_eq);
    eexists; (split; [done|]);
    repeat match goal with
           | H : _ ≫= _ = Some _ |- _ =>
               apply bind_Some in H as (? & ? & ?)
           | H : dailyPoints _ _ = Some _ |- _ =>
               apply dailyPoints_iso in H as [? _]
           | H : context [match ?x with _ => _ end] |- _ =>
               destruct x eqn:?; simpl in H
           end; simplify_eq; try done.
    all: apply Forall_app; split; [done|]; repeat constructor; by eexists. }
  assert (Forall isoStamped (sort byTime data)) as Hsorted_iso.
  { by rewrite sort_perm. }
  split_and!; [apply (sort_sorted timeOf), byTime_key|done|].
  by apply usableItems_iso.
Qed.
End StargridFacts.

Section DecimalKeys.
Local Open Scope N_scope.

Lemma small_N d : d < 10 →
  d = 0 ∨ d = 1 ∨ d = 2 ∨ d = 3 ∨ d = 4 ∨ d = 5 ∨ d = 6 ∨ d = 7 ∨ d = 8 ∨ d = 9.
Proof. lia. Qed.

Lemma parseDigits_digit d s acc :
  d < 10 →
  parseDigits 10 (String (pretty_N_char d) s) acc =
    parseDigits 10 s (Some (10 * default 0%Z acc + Z.of_N d)%Z).
Proof.
  intros Hd. destruct (small_N d Hd) as [->|[->|[->|[->|[->|[->|[->|[->|[->| ->]]]]]]]]];
    reflexivity.
Qed.

(** Reading back the digits that [pretty] writes in front of [s]. *)
Lemma parseDigits_pretty_go x s acc :
  0 < x →
  ∃ m : Z, parseDigits 10 (pretty_N_go x s) acc =
           parseDigits 10 s (Some (default 0 acc * m + Z.of_N x)%Z).
Proof.
  revert s. induction (N.lt_wf_0 x) as [x _ IH]. intros s Hx.
  rewrite pretty_N_go_step by done.
  destruct (decide (x `div` 10 = 0)) as [Hsmall|Hlarge].
  - rewrite Hsmall, pretty_N_go_0.
    rewrite parseDigits_digit by (apply N.mod_lt; lia).
    exists 10%Z. do 2 f_equal.
    assert (x < 10) by (by apply N.div_small_iff in Hsmall).
    rewrite N.mod_small by done. lia.
  - destruct (IH (x `div` 10)) with (s := String (pretty_N_char (x `mod` 10)) s)
      as [m Hm]; [apply N.div_lt; lia|by apply N.neq_0_lt_0|].
    rewrite Hm. rewrite parseDigits_digit by (apply N.mod_lt; lia).
    exists (10 * m)%Z. do 2 f_equal. simpl.
    assert (Z.of_N x = 10 * Z.of_N (x `div` 10) + Z.of_N (x `mod` 10))%Z as Hx'.
    { rewrite (N.div_mod x 10) at 1 by done.
      by rewrite N2Z.inj_add, N2Z.inj_mul. }
    rewrite Hx'. generalize (Z.of_N (x `div` 10)) (Z.of_N (x `mod` 10)).
    intros; lia.
Qed.

(** The first character that [pretty] writes is a digit from 1 to 9. *)
Lemma pretty_go_head x s :
  0 < x → ∃ d rest, 0 < d < 10 ∧ pretty_N_go x s = String (pretty_N_char d) rest.
Proof.
  revert s. induction (N.lt_wf_0 x) as [x _ IH]. intros s Hx.
  rewrite pretty_N_go_step by done.
  destruct (decide (x `div` 10 = 0)) as [Hsmall|Hlarge].
  - rewrite Hsmall, pretty_N_go_0. exists (x `mod` 10), s. split; [|done].
    assert (x < 10) by (by apply N.div_small_iff in Hsmall).
    rewrite N.mod_small by done. lia.
  - apply IH; [apply N.div_lt; lia|by apply N.neq_0_lt_0].
Qed.

Lemma parseInt_pretty_positive (p : positive) (radix : option Z) :
  radix = None ∨ radix = Some 10%Z →
  parseInt (pretty (Npos p)) radix = roundToDouble (Zpos p) ∧
  parseUnsigned radix (pretty (Npos p)) = Some (Zpos p).
Proof.
  intros Hradix. unfold pretty, pretty_N. rewrite decide_False by done.
  destruct (pretty_go_head (Npos p) "") as (d & rest & Hd & Hhead); [lia|].
  destruct (parseDigits_pretty_go (Npos p) "" None) as [m Hm]; [lia|].
  simpl in Hm.
  assert (parseUnsigned radix (pretty_N_go (N.pos p) "") = Some (Z.pos p))
    as Hunsigned.
  { transitivity (parseDigits 10 (pretty_N_go (N.pos p) "") None).
    - rewrite Hhead.
      destruct Hradix as [-> | ->];
        destruct (small_N d (proj2 Hd)) as [->|[->|[->|[->|[->|[->|[->|[->|[->| ->]]]]]]]]];
        try lia; reflexivity.
    - by rewrite Hm. }
  split; [|done].
  transitivity (match parseUnsigned radix (pretty_N_go (N.pos p) "") with
                | Some mathInt => roundToDouble mathInt
                | None => NaN
                end); [|by rewrite Hunsigned].
  rewrite Hhead.
  destruct (small_N d (proj2 Hd)) as [->|[->|[->|[->|[->|[->|[->|[->|[->| ->]]]]]]]]];
    try lia; reflexivity.
Qed.

(** What [parseInt] reads from the decimal text of an integer is the
    double nearest to it. *)
Lemma parseInt_pretty (k : Z) (radix : option Z) :
  radix = None ∨ radix = Some 10%Z →
  parseInt (pretty k) radix = roundToDouble k.
Proof.
  intros Hradix. destruct k as [|p|p].
  - by destruct Hradix as [-> | ->].
  - by apply parseInt_pretty_positive.
  - change (pretty (Z.neg p)) with ("-" +:+ pretty (N.pos p)).
    destruct (parseInt_pretty_positive p radix Hradix) as [_ Hunsigned].
    change (parseInt ("-" +:+ pretty (N.pos p)) radix)
      with (match parseUnsigned radix (pretty (N.pos p)) with
            | Some mathInt => roundToDouble (- mathInt)
            | None => NaN
            end).
    by rewrite Hunsigned.
Qed.
End DecimalKeys.

(** X9. A day number written in decimal, as the key of a JSON object is,
    is read by [parseInt], with or without the radix 10, as the double
    nearest to it, so exactly when it is below 2^53 in magnitude.  For a
    day number from -100000000 to 100000000 both adapters give the key the
    timestamp [k * 86400000]; for one beyond that range both throw. *)
Theorem day_key_round_trip (k : Z) :
  parseInt (pretty k) None = roundToDouble k ∧
  parseInt (pretty k) (Some 10) = roundToDouble k ∧
  (Z.abs k < 2 ^ 53 →
     parseInt (pretty k) None = Integer k ∧
     parseInt (pretty k) (Some 10) = Integer k) ∧
  (Z.abs k ≤ 100000000 →
     timestampMs (pretty k) = Some (k * 86400000) ∧
     dayNumberDate (pretty k) = Some (k * 86400000)) ∧
  (100000000 < Z.abs k →
     timestampMs (pretty k) = None ∧ dayNumberDate (pretty k) = None).
Proof.
  assert (∀ radix, radix = None ∨ radix = Some 10 →
            parseInt (pretty k) radix = roundToDouble k) as Hparse
    by apply parseInt_pretty.
  split_and!.
  - apply Hparse. by left.
  - apply Hparse. by right.
  - intros Hk. rewrite !Hparse by auto. by rewrite roundToDouble_exact.
  - intros Hk.
    assert (roundToDouble k = Integer k) as Hexact.
    { apply roundToDouble_exact.
      assert (100000000 < 2 ^ 53) by done. lia. }
    unfold timestampMs, dayNumberDate. rewrite !Hparse by auto.
    rewrite Hexact. by apply day_in_range.
  - intros Hk. unfold timestampMs, dayNumberDate. rewrite !Hparse by auto.
    apply day_out_of_range. intros k' Hk'.
    pose proof (roundToDouble_atLeast 100000001 k) as Hbound.
    rewrite Hk' in Hbound. simpl in Hbound.
    assert (100000001 ≤ 2 ^ 53) by done. lia.
Qed.


(** * Further properties of charts.js *)
Import Dashboard.

Section MoreSortFacts.
Context {A : Type} (key : A → Z) (cmp : A → A → Z).
Hypothesis cmp_key : ∀ a b, cmp a b = key a - key b.

(** A list that is in order stays as it is: the sort is stable. *)
Lemma sort_ordered_id (l : list A) :
  StronglySorted (λ a b, key a ≤ key b) l → sort cmp l = l.
Proof.
  induction 1 as [|x l Hl IH Hx]; [done|].
  simpl. fold (sort cmp l). rewrite IH.
  destruct l as [|y l]; [done|]. simpl.
  apply Forall_cons in Hx as [Hxy _].
  rewrite decide_True; [done|]. rewrite cmp_key. lia.
Qed.

Lemma sublist_StronglySorted (R : relation A) (l k : list A) :
  l `sublist_of` k → StronglySorted R k → StronglySorted R l.
Proof.
  induction 1 as [|x l k Hsub IH|x l k Hsub IH]; intros Hk.
  - constructor.
  - apply StronglySorted_inv in Hk as [Hk Hx]. constructor; [by apply IH|].
    rewrite Forall_forall in Hx |- *. intros y Hy. apply Hx.
    by eapply elem_of_sublist.
  - apply StronglySorted_inv in Hk as [Hk _]. by apply IH.
Qed.

(** The last element of a list in order is a largest one. *)
Lemma last_ordered_max (l : list A) m :
  StronglySorted (λ a b, key a ≤ key b) l → last l = Some m →
  ∀ x, x ∈ l → key x ≤ key m.
Proof.
  intros Hl (l' & ->)%last_Some x Hx.
  apply elem_of_app in Hx as [Hx|Hx].
  - apply (StronglySorted_app_1_elem_of _ _ _ x m Hl); [done|left].
  - apply list_elem_of_singleton in Hx as ->. lia.
Qed.
End MoreSortFacts.

Section MoreSetFacts.
Context {A : Type} `{EqDecision A}.

Lemma Set_add_loop_fresh (l s : list A) :
  NoDup (s ++ l) → foldl Set_add s l = s ++ l.
Proof.
  revert s. induction l as [|x l IH]; intros s Hnd; simpl.
  - by rewrite app_nil_r.
  - assert (x ∉ s) as Hx.
    { apply NoDup_app in Hnd as (_ & Hdisj & _). intros Hin.
      apply (Hdisj x Hin). left. }
    unfold Set_add at 2. rewrite decide_False by done.
    rewrite IH; [by rewrite <- app_assoc|]. by rewrite <- app_assoc.
Qed.

Lemma Set_add_loop_known (l s : list A) :
  (∀ x, x ∈ l → x ∈ s) → foldl Set_add s l = s.
Proof.
  induction l as [|x l IH]; intros Hin; simpl; [done|].
  unfold Set_add at 2. rewrite decide_True by (apply Hin; left).
  apply IH. intros y Hy. apply Hin. by right.
Qed.

(** [new Set] of a duplicate-free list followed by itself is that list. *)
Lemma newSet_twice (l : list A) : NoDup l → newSet (l ++ l) = l.
Proof.
  intros Hnd. unfold newSet. rewrite foldl_app.
  rewrite (Set_add_loop_fresh l []) by done. simpl.
  by apply Set_add_loop_known.
Qed.
End MoreSetFacts.

Section Realignment.
Variable formatDate : Z → string.
Variable getProcessDisplayName : string → string.
Implicit Types (A B : list DataPoint) (t : jsTime).

Lemma alignedAt_timestamp A t : timestamp (alignedAt A t) = t.
Proof.
  unfold alignedAt, pointAt. destruct (find _ A) as [p|] eqn:Hp; [|done].
  apply find_Some in Hp as [_ Hp]. by apply bool_decide_eq_true in Hp.
Qed.

Lemma alignedAt_count A t : count (alignedAt A t) = valueAt A t.
Proof. unfold alignedAt, valueAt. by destruct (pointAt A t). Qed.

Lemma aligned_timestamps A (ts : list jsTime) :
  timestamp <$> (alignedAt A <$> ts) = ts.
Proof.
  rewrite <- list_fmap_compose. rewrite <- (list_fmap_id ts) at 2.
  apply list_fmap_ext. intros _ t _. apply alignedAt_timestamp.
Qed.

(** In the aligned data the point of a timestamp is the aligned one. *)
Lemma pointAt_aligned A (ts : list jsTime) t :
  t ∈ ts → pointAt (alignedAt A <$> ts) t = Some (alignedAt A t).
Proof.
  unfold pointAt. induction ts as [|t' ts IH]; [by intros ?%elem_of_nil|].
  intros Hin. csimpl. rewrite alignedAt_timestamp.
  destruct (decide (t' = t)) as [->|Hne].
  - by rewrite bool_decide_eq_true_2.
  - rewrite bool_decide_eq_false_2 by done. apply IH.
    apply elem_of_cons in Hin as [?|?]; [congruence|done].
Qed.

(** X10. What updateStandardCombinedChart stores for the tooltips matches
    the chart point by point: both stored histories have one point for each
    label, the point at an index has the timestamp of that index of the
    timeline in both of them, and its count is the value charted there. *)
Theorem aligned_data_matches_chart primary secondary A B :
  let chart :=
    updateStandardCombinedChart formatDate getProcessDisplayName
      primary secondary A B in
  timestamp <$> alignedPrimaryData chart = uniqueTimestamps A B ∧
  timestamp <$> alignedSecondaryData chart = uniqueTimestamps A B ∧
  count <$> alignedPrimaryData chart = primaryValues chart ∧
  count <$> alignedSecondaryData chart = secondaryValues chart ∧
  length (alignedPrimaryData chart) = length (labels chart) ∧
  length (alignedSecondaryData chart) = length (labels chart).
Proof.
  intros chart. unfold chart. simpl. split_and!.
  - apply aligned_timestamps.
  - apply aligned_timestamps.
  - rewrite <- list_fmap_compose. apply list_fmap_ext.
    intros _ t _. apply alignedAt_count.
  - rewrite <- list_fmap_compose. apply list_fmap_ext.
    intros _ t _. apply alignedAt_count.
  - by rewrite !length_fmap.
  - by rewrite !length_fmap.
Qed.

(** X11. Aligning again what an alignment has stored changes nothing: the
    timeline, both value arrays and both stored histories come out the
    same, so the placeholder points with a null count that the first
    alignment put in stay placeholders. *)
Theorem realignment_is_stable primary secondary A B :
  let chart :=
    updateStandardCombinedChart formatDate getProcessDisplayName
      primary secondary A B in
  updateStandardCombinedChart formatDate getProcessDisplayName
    primary secondary (alignedPrimaryData chart) (alignedSecondaryData chart)
  = chart.
Proof.
  intros chart. unfold chart.
  set (ts := uniqueTimestamps A B).
  assert (uniqueTimestamps (alignedAt A <$> ts) (alignedAt B <$> ts) = ts)
    as Hts.
  { unfold uniqueTimestamps at 1. rewrite !aligned_timestamps.
    rewrite newSet_twice by apply uniqueTimestamps_NoDup.
    apply (sort_ordered_id newDate); [apply byDate_key|].
    apply uniqueTimestamps_sorted. }
  unfold updateStandardCombinedChart. simpl. fold ts. rewrite Hts.
  assert (∀ C, valueAt (alignedAt C <$> ts) <$> ts = valueAt C <$> ts) as Hval.
  { intros C. apply list_fmap_ext. intros i t Hi.
    unfold valueAt at 1. rewrite pointAt_aligned.
    - apply alignedAt_count.
    - apply list_elem_of_lookup. by exists i. }
  assert (∀ C, alignedAt (alignedAt C <$> ts) <$> ts = alignedAt C <$> ts)
    as Hal.
  { intros C. apply list_fmap_ext. intros i t Hi.
    unfold alignedAt at 1. rewrite pointAt_aligned; [done|].
    apply list_elem_of_lookup. by exists i. }
  by rewrite !Hval, !Hal.
Qed.
End Realignment.

Section StandardChart.
Variable formatDate : Z → string.
Variable formatDateUTCWithLocalTime : Z → string.
Variable getProcessDisplayName : string → string.

Local Abbreviation update :=
  (updateStandardChart formatDate formatDateUTCWithLocalTime
     getProcessDisplayName).

(** X12. updateStandardChart does nothing for a process without a chart.
    For a chart with a dataset it stores the points in order of time as
    the history of the process and fills the chart from that history: label
    and value number [i] are those of stored point number [i], no point is
    lost or added, and the other histories and charts stay as they are. *)
Theorem updateStandardChart_shows_history processName dataPoints s :
  (charts s !! processName = None →
     update processName dataPoints s = Returned s) ∧
  (∀ chart ds rest,
     charts s !! processName = Some chart →
     chart_datasets chart = ds :: rest →
     ∃ stored labels,
       update processName dataPoints s =
         Returned
           (mkState
              (<[processName :=
                   mkChart labels
                     (mkDataset (getProcessDisplayName processName)
                        (count <$> stored) :: rest)]> (charts s))
              (<[processName := stored]> (historicalData s))) ∧
       stored ≡ₚ dataPoints ∧
       StronglySorted (λ a b, timeOf a ≤ timeOf b) stored ∧
       length labels = length stored ∧
       ∀ i p, stored !! i = Some p →
         labels !! i =
           Some (if bool_decide (processName = "stargrid"%string)
                 then formatDateUTCWithLocalTime (timeOf p)
                 else formatDate (timeOf p))).
Proof.
  split.
  - intros Hnone. unfold updateStandardChart. by rewrite Hnone.
  - intros chart ds rest Hchart Hds.
    eexists (sort byTime dataPoints), _. split_and!.
    + unfold updateStandardChart. rewrite Hchart.
      unfold setData, setLabel, setLabels. simpl. rewrite Hds. simpl. done.
    + apply sort_perm.
    + apply (sort_sorted timeOf), byTime_key.
    + by rewrite length_fmap.
    + intros i p Hi. by rewrite list_lookup_fmap, Hi.
Qed.
End StandardChart.

Section CleanedHistory.
Implicit Types (s : State) (data : list DataPoint).

Lemma usableItems_points data :
  usableItems (ItemPoint <$> data)
  = filter (λ p, truthy (timestamp p) = true) data.
Proof.
  unfold usableItems. induction data as [|p data IH]; [done|].
  csimpl. destruct (truthy (timestamp p)) eqn:Hp; simpl.
  - rewrite filter_cons_True by done. by rewrite IH.
  - by rewrite filter_cons_False by congruence.
Qed.

(** X13. The history that updateChartTimeRange stores back does not depend
    on the order in which the points were stored, as long as no two of
    them carry the same instant. *)
Theorem cleanedHistory_order_independent now processName s s' data data' :
  historicalData s !! processName = Some data →
  historicalData s' !! processName = Some data' →
  data ≡ₚ data' →
  NoDup (timeOf <$> data) →
  cleanedHistory now processName s = cleanedHistory now processName s'.
Proof.
  intros Hs Hs' Hperm Hnd. unfold cleanedHistory. rewrite Hs, Hs'. simpl.
  by rewrite (sort_unique timeOf byTime byTime_key data data').
Qed.

(** X14. Because updateChartTimeRange sorts the history before it removes
    the duplicates, the 00:00:00 point that it keeps for the current UTC
    day is the latest of the usable points of that day within that
    second. *)
Theorem cleanedHistory_keeps_latest_midnight now processName s data m :
  historicalData s !! processName = Some data →
  m ∈ cleanedHistory now processName s →
  isToday now m → atMidnight m →
  ∀ q, q ∈ data → truthy (timestamp q) = true →
       isToday now q → atMidnight q → timeOf q ≤ timeOf m.
Proof.
  intros Hs Hm Htoday Hmid q Hq Htruthy Hqtoday Hqmid.
  unfold cleanedHistory in Hm. rewrite Hs in Hm. simpl in Hm.
  set (sorted := sort byTime data) in *.
  set (items := ItemPoint <$> sorted) in *.
  assert (m ∈ filter (isToday now)
            (removeDuplicateDates now (Some items)
               (includes "weekly" processName))) as Hm'.
  { by apply list_elem_of_filter. }
  rewrite output_today in Hm'.
  assert (earliestToday now items = Some m) as He.
  { apply elem_of_app in Hm' as [Hm'|Hm'].
    - destruct (earliestToday now items) as [e|]; simpl in Hm';
        [|by apply elem_of_nil in Hm'].
      by apply list_elem_of_singleton in Hm' as ->.
    - destruct (latestToday now items) as [t|] eqn:Ht; simpl in Hm';
        [|by apply elem_of_nil in Hm'].
      apply list_elem_of_singleton in Hm' as ->.
      by apply latestToday_elem in Ht as [_ ?]. }
  unfold earliestToday, todayEntries, items in He.
  rewrite usableItems_points in He.
  apply (last_ordered_max timeOf _ m) with (x := q) in He; [done| |].
  - do 3 apply filter_StronglySorted.
    apply (sort_sorted timeOf), byTime_key.
  - rewrite !list_elem_of_filter. split_and!; [done..|].
    unfold sorted. by rewrite sort_perm.
Qed.
End CleanedHistory.

(** Every point of an output is an element of the input. *)
Lemma output_from_input now w items p :
  p ∈ removeDuplicateDates now (Some items) w → ItemPoint p ∈ items.
Proof.
  rewrite output_perm. intros Hin%unsorted_usable.
  by apply usable_elem_of in Hin as [? _].
Qed.

Section TimeRange.
Variable formatDate : Z → string.
Variable formatDateUTCWithLocalTime : Z → string.
Variable filterDataByTimeRange :
  ∀ A : Type, (A → jsTime) → list A → string → list A.
Variable getProcessDisplayName : string → string.

Local Abbreviation updateRange :=
  (updateChartTimeRange formatDate formatDateUTCWithLocalTime
     filterDataByTimeRange getProcessDisplayName).

Lemma cleanedHistory_strict now processName s :
  StronglySorted (λ a b, timeOf a < timeOf b)
    (cleanedHistory now processName s).
Proof. apply output_strict. Qed.

(** X15. For a process with a standard chart, updateChartTimeRange leaves
    as the stored history exactly the points that the time range filter
    lets through of the sorted and deduplicated history, provided the
    filter only drops points: what is outside the selected range is gone
    from the history, not only from the chart.  The stored points are in
    strict order of time and were all in the history before. *)
Theorem updateChartTimeRange_stores_filtered now processName timeRange s
    chart ds rest :
  (∀ (l : list DataPoint) range,
     filterDataByTimeRange _ timestamp l range `sublist_of` l) →
  processName ≠ "wUSDCTransfer"%string →
  processName ≠ "wARTotalSupply"%string →
  charts s !! processName = Some chart →
  chart_datasets chart = ds :: rest →
  ∃ s',
    updateRange now processName timeRange s = Returned s' ∧
    let stored :=
      filterDataByTimeRange _ timestamp (cleanedHistory now processName s)
        timeRange in
    historicalData s' !! processName = Some stored ∧
    StronglySorted (λ a b, timeOf a < timeOf b) stored ∧
    (∀ p, p ∈ stored →
       p ∈ default [] (historicalData s !! processName)) ∧
    (∀ other, other ≠ processName →
       historicalData s' !! other = historicalData s !! other).
Proof.
  intros Hfilter Hne1 Hne2 Hchart Hds.
  set (stored := filterDataByTimeRange _ timestamp
                   (cleanedHistory now processName s) timeRange).
  assert (StronglySorted (λ a b, timeOf a < timeOf b) stored) as Hstrict.
  { eapply sublist_StronglySorted; [apply Hfilter|].
    apply cleanedHistory_strict. }
  assert (sort byTime stored = stored) as Hsort.
  { apply (sort_sorted_id timeOf); [apply byTime_key|done]. }
  eexists. split.
  { unfold updateChartTimeRange.
    rewrite !bool_decide_eq_false_2 by done. fold stored.
    unfold updateStandardChart. simpl. rewrite Hchart.
    unfold setData, setLabel, setLabels. simpl. rewrite Hds. simpl.
    rewrite Hsort. reflexivity. }
  cbv zeta. fold stored. simpl. rewrite insert_insert_eq. split_and!.
  - apply lookup_insert_eq.
  - done.
  - intros p Hp. eapply elem_of_sublist in Hp; [|apply Hfilter].
    unfold cleanedHistory in Hp.
    apply output_from_input in Hp.
    apply list_elem_of_fmap in Hp as (p' & [= <-] & Hin).
    by rewrite sort_perm in Hin.
  - intros other Hother. by apply lookup_insert_ne.
Qed.
End TimeRange.

Section Frame.
Variable formatDate : Z → string.
Variable formatDateUTCWithLocalTime : Z → string.
Variable filterDataByTimeRange :
  ∀ A : Type, (A → jsTime) → list A → string → list A.
Variable getProcessDisplayName : string → string.

Local Abbreviation updateRange' :=
  (updateChartTimeRange formatDate formatDateUTCWithLocalTime
     filterDataByTimeRange getProcessDisplayName).

Ltac frame_cases :=
  repeat (match goal with
          | |- context [match ?x with _ => _ end] => destruct x eqn:?
          end; simpl);
  rewrite ?lookup_insert_ne by done; done.

(** X16. Whatever the filter does and however the call ends, with a return
    or with a TypeError for a missing dataset, updateChartTimeRange writes
    to the chart of its process only, and to the history of its process
    and, for wUSDCTransfer, of USDATransfer only. *)
Theorem updateChartTimeRange_touches_own_process now processName timeRange s
    other :
  other ≠ processName →
  let s' := stateOf (updateRange' now processName timeRange s) in
  charts s' !! other = charts s !! other ∧
  (¬ (processName = "wUSDCTransfer"%string ∧ other = "USDATransfer"%string) →
     historicalData s' !! other = historicalData s !! other).
Proof.
  intros Hother s'. unfold s', updateChartTimeRange.
  destruct (bool_decide (processName = "wUSDCTransfer"%string)) eqn:Hcombined.
  - apply bool_decide_eq_true in Hcombined as ->.
    assert (other ≠ "USDATransfer"%string → "USDATransfer"%string ≠ other)
      as Hsym by congruence.
    split; [|intros Hnot; assert (other ≠ "USDATransfer"%string) by tauto;
             specialize (Hsym ltac:(done))];
      unfold updateCombinedChart, commitCombined, setData, setLabel; simpl;
      frame_cases.
  - apply bool_decide_eq_false in Hcombined.
    destruct (bool_decide (processName = "wARTotalSupply"%string)) eqn:Hsupply.
    + apply bool_decide_eq_true in Hsupply as ->.
      split; [|intros _];
        unfold updateSupplyChart, setData, setLabel; simpl; frame_cases.
    + split; [|intros _];
        unfold updateStandardChart, setData, setLabel; simpl; frame_cases.
Qed.
End Frame.

Section CombinedChartState.
Variable formatDate : Z → string.
Variable filterDataByTimeRange :
  ∀ A : Type, (A → jsTime) → list A → string → list A.
Variable getProcessDisplayName : string → string.

Local Abbreviation updateCombined :=
  (updateCombinedChart formatDate filterDataByTimeRange getProcessDisplayName).

(** X17. updateCombinedChart does nothing when the primary process has no
    chart or when neither process has any stored point.  Otherwise, on a
    chart with two datasets, it leaves the labels, the two datasets and the
    two stored histories all of one length, and at every index the two
    stored points carry the same timestamp and the counts that the two
    datasets show there. *)
Theorem updateCombinedChart_consistent primary secondary timeRange s :
  (charts s !! primary = None →
     updateCombinedChart formatDate filterDataByTimeRange
       getProcessDisplayName primary secondary timeRange s = Returned s) ∧
  (default [] (historicalData s !! primary) = [] →
   default [] (historicalData s !! secondary) = [] →
     updateCombined primary secondary timeRange s = Returned s) ∧
  (∀ chart d0 d1 rest,
     charts s !! primary = Some chart →
     chart_datasets chart = d0 :: d1 :: rest →
     primary ≠ secondary →
     ¬ (default [] (historicalData s !! primary) = [] ∧
        default [] (historicalData s !! secondary) = []) →
     ∃ s' labels v0 v1 hp hs,
       updateCombined primary secondary timeRange s = Returned s' ∧
       charts s' !! primary =
         Some (mkChart labels
                 (mkDataset (getProcessDisplayName primary) v0
                  :: mkDataset (getProcessDisplayName secondary) v1 :: rest)) ∧
       historicalData s' !! primary = Some hp ∧
       historicalData s' !! secondary = Some hs ∧
       length v0 = length labels ∧ length v1 = length labels ∧
       length hp = length labels ∧ length hs = length labels ∧
       timestamp <$> hp = timestamp <$> hs ∧
       count <$> hp = v0 ∧ count <$> hs = v1).
Proof.
  split_and!.
  - intros Hnone. unfold updateCombinedChart. by rewrite Hnone.
  - intros Hp Hs. unfold updateCombinedChart.
    destruct (charts s !! primary); [|done]. by rewrite Hp, Hs.
  - intros chart d0 d1 rest Hchart Hds Hne Hdata.
    unfold updateCombinedChart. rewrite Hchart.
    destruct (bool_decide (length (default [] (historicalData s !! primary)) = 0%nat)
              && bool_decide (length (default [] (historicalData s !! secondary)) = 0%nat))
      eqn:Hempty.
    { apply andb_true_iff in Hempty as [H1 H2].
      apply bool_decide_eq_true in H1, H2.
      destruct Hdata. split; by apply nil_length_inv. }
    set (A := filterDataByTimeRange _ timestamp
                (default [] (historicalData s !! primary)) timeRange).
    set (B := filterDataByTimeRange _ timestamp
                (default [] (historicalData s !! secondary)) timeRange).
    set (ts := uniqueTimestamps A B).
    exists (mkState
              (<[primary :=
                   mkChart ((λ t, formatDate (newDate t)) <$> ts)
                     (mkDataset (getProcessDisplayName primary)
                        (valueAt A <$> ts)
                      :: mkDataset (getProcessDisplayName secondary)
                           (valueAt B <$> ts) :: rest)]> (charts s))
              (<[secondary := alignedAt B <$> ts]>
                 (<[primary := alignedAt A <$> ts]> (historicalData s)))),
      ((λ t, formatDate (newDate t)) <$> ts), (valueAt A <$> ts),
      (valueAt B <$> ts), (alignedAt A <$> ts), (alignedAt B <$> ts).
    split_and!.
    + unfold commitCombined, setData, setLabel, setLabels. simpl.
      rewrite Hds. simpl. done.
    + simpl. apply lookup_insert_eq.
    + simpl. rewrite lookup_insert_ne by congruence. apply lookup_insert_eq.
    + simpl. apply lookup_insert_eq.
    + by rewrite !length_fmap.
    + by rewrite !length_fmap.
    + by rewrite !length_fmap.
    + by rewrite !length_fmap.
    + by rewrite !aligned_timestamps.
    + rewrite <- list_fmap_compose. apply list_fmap_ext.
      intros _ t _. apply alignedAt_count.
    + rewrite <- list_fmap_compose. apply list_fmap_ext.
      intros _ t _. apply alignedAt_count.
Qed.
End CombinedChartState.

Section RuneRealmFacts.
Variable filterDataByTimeRange : list StreakDay → string → list StreakDay.
Variable monthAndDay : Z → string.

Local Abbreviation view := (runeRealmView filterDataByTimeRange monthAndDay).
Local Abbreviation shown := (shownStreaks filterDataByTimeRange).

(** X18. The five datasets that updateRuneRealmChart writes are as long as
    the labels, the x axis ends at the last label, the dummy dataset is all
    zeros, and at every index the total is the sum of the low, medium and
    high values shown there, a missing category counting as 0. *)
Theorem runeRealm_datasets_aligned runeRealmData timeRange :
  let v :=
    runeRealmView filterDataByTimeRange monthAndDay runeRealmData timeRange in
  let n := length (rr_labels v) in
  length (rr_dummy v) = n ∧ length (rr_low v) = n ∧
  length (rr_medium v) = n ∧ length (rr_high v) = n ∧
  length (rr_total v) = n ∧
  rr_xmax v = Z.of_nat n - 1 ∧
  (∀ i z, rr_dummy v !! i = Some z → z = 0) ∧
  (∀ i, (i < n)%nat →
     ∃ l m h, rr_low v !! i = Some l ∧ rr_medium v !! i = Some m ∧
              rr_high v !! i = Some h ∧ rr_total v !! i = Some (l + m + h)).
Proof.
  intros v n. unfold n, v, runeRealmView. simpl.
  rewrite length_replicate, !length_fmap. split_and!; try done.
  - intros i z. rewrite lookup_replicate. by intros [-> _].
  - intros i Hi. rewrite !list_lookup_fmap.
    destruct (lookup_lt_is_Some_2 (shown runeRealmData timeRange) i Hi)
      as [d Hd].
    rewrite Hd. simpl. by eexists _, _, _.
Qed.

(** X19. updateRuneRealmChart shows every point, in order of time, when
    there are at most three of them or when the time range filter returns
    nothing; so the chart of a non-empty data set is never empty. *)
Theorem runeRealm_never_blank runeRealmData timeRange :
  ((length runeRealmData ≤ 3)%nat →
     shown runeRealmData timeRange = sort byStreakTime runeRealmData) ∧
  (filterDataByTimeRange (sort byStreakTime runeRealmData) timeRange = [] →
     shown runeRealmData timeRange = sort byStreakTime runeRealmData) ∧
  (runeRealmData ≠ [] → rr_labels (view runeRealmData timeRange) ≠ []).
Proof.
  assert (length (sort byStreakTime runeRealmData) = length runeRealmData)
    as Hlen by (by rewrite sort_perm).
  split_and!.
  - intros Hfew. unfold shownStreaks. rewrite decide_False by lia. done.
  - intros Hnone. unfold shownStreaks. rewrite Hnone. simpl.
    by destruct (decide _).
  - intros Hne Hlabels. apply fmap_nil_inv in Hlabels.
    unfold shownStreaks in Hlabels.
    assert (sort byStreakTime runeRealmData ≠ []) as Hsorted.
    { intros Heq. rewrite Heq in Hlen. simpl in Hlen.
      symmetry in Hlen. by apply nil_length_inv in Hlen. }
    repeat case_decide; try done.
    rewrite Hlabels in *. simpl in *. lia.
Qed.
End RuneRealmFacts.

Section FormattedData.
Lemma formatEntry_Some e p :
  formatEntry e = Some p →
  parseInt e.1 (Some 10) = Integer (sp_day p) ∧
  Z.abs (sp_day p) ≤ 100000000 ∧
  sp_timestamp p = TString (sp_day p * 86400000) ∧
  sp_Low p = default 0 (Low e.2) ∧
  sp_Medium p = default 0 (Medium e.2) ∧
  sp_High p = default 0 (High e.2) ∧
  sp_Total p = sp_Low p + sp_Medium p + sp_High p.
Proof.
  unfold formatEntry.
  intros (t & (k & Hk & Hrange & ->)%dayNumberDate_Some & Hp)%bind_Some.
  rewrite Hk in Hp. by simplify_eq.
Qed.

Lemma formatEntry_None e :
  (∀ k, parseInt e.1 (Some 10) = Integer k → 100000000 < Z.abs k) →
  formatEntry e = None.
Proof.
  intros Hout. unfold formatEntry.
  destruct (dayNumberDate e.1) as [t|] eqn:Ht; [|done].
  apply dayNumberDate_Some in Ht as (k & Hk & Hrange & _).
  specialize (Hout k Hk). lia.
Qed.

(** X20. The list that the earlier updateRuneRealmChart builds is in order
    of time and has one point for every entry; the point of a key has the
    day number that [parseInt(key, 10)] reads, 00:00:00 UTC of that day as
    an ISO timestamp, the three categories with 0 for a missing one, and
    their sum as Total.  Building it fails ([toISOString] throws) when
    some key does not read as a number, or reads as a day beyond the range
    of [Date]. *)
Theorem formattedData_points entries :
  (∀ out, formattedData entries = Some out →
     StronglySorted
       (λ a b, newDate (sp_timestamp a) ≤ newDate (sp_timestamp b)) out ∧
     length out = length entries ∧
     ∀ p, p ∈ out →
       ∃ key b, (key, b) ∈ entries ∧
         parseInt key (Some 10) = Integer (sp_day p) ∧
         sp_timestamp p = TString (sp_day p * 86400000) ∧
         sp_Low p = default 0 (Low b) ∧
         sp_Medium p = default 0 (Medium b) ∧
         sp_High p = default 0 (High b) ∧
         sp_Total p = sp_Low p + sp_Medium p + sp_High p) ∧
  (∀ key b, (key, b) ∈ entries → parseInt key (Some 10) = NaN →
     formattedData entries = None) ∧
  (∀ key b k, (key, b) ∈ entries → parseInt key (Some 10) = Integer k →
     100000000 < Z.abs k → formattedData entries = None).
Proof.
  assert (∀ key b, (key, b) ∈ entries →
            (∀ k, parseInt key (Some 10) = Integer k → 100000000 < Z.abs k) →
            formattedData entries = None) as Hfail.
  { intros key b Hin Hout. unfold formattedData.
    destruct (mapM formatEntry entries) as [pushed|] eqn:Hpushed; [|done].
    apply mapM_Some_1 in Hpushed.
    apply list_elem_of_lookup in Hin as [i Hi].
    destruct (Forall2_lookup_l _ _ _ _ _ Hpushed Hi) as (p & _ & Hf).
    by rewrite (formatEntry_None (key, b)) in Hf. }
  split_and!.
  - unfold formattedData. intros out (pushed & Hpushed & ->)%fmap_Some.
    apply mapM_Some_1 in Hpushed. split_and!.
    + apply (sort_sorted (λ p, newDate (sp_timestamp p))). by intros a b.
    + rewrite sort_perm. symmetry. by eapply Forall2_length.
    + intros p Hp. rewrite sort_perm in Hp.
      apply list_elem_of_lookup in Hp as [i Hi].
      destruct (Forall2_lookup_r _ _ _ _ _ Hpushed Hi) as ([key b] & He & Hf).
      exists key, b. split.
      { apply list_elem_of_lookup. by exists i. }
      apply formatEntry_Some in Hf. simpl in Hf. tauto.
  - intros key b Hin Hnan. apply (Hfail key b Hin). intros k. by rewrite Hnan.
  - intros key b k Hin Hk Hrange. apply (Hfail key b Hin).
    intros k'. rewrite Hk. by intros [= <-].
Qed.
End FormattedData.

Section SupplyChart.
Variable formatDate : Z → string.
Variable filterDataByTimeRange :
  ∀ A : Type, (A → jsTime) → list A → string → list A.

Local Abbreviation updateSupply :=
  (updateSupplyChart formatDate filterDataByTimeRange).

(** X21. updateSupplyChart does nothing without a supply chart and for
    missing or empty data.  Otherwise, on a chart with a dataset, it shows
    the points that the time range filter returns, in order of time: label
    and value number [i] are the formatted date and the wARSupply of point
    number [i].  Unlike updateStandardChart it stores no history at all. *)
Theorem updateSupplyChart_shows_filtered supplyData timeRange s :
  (charts s !! "wARTotalSupply"%string = None ∨ supplyData = None
   ∨ supplyData = Some [] →
     updateSupply supplyData timeRange s = Returned s) ∧
  (∀ chart ds rest points,
     charts s !! "wARTotalSupply"%string = Some chart →
     chart_datasets chart = ds :: rest →
     supplyData = Some points → points ≠ [] →
     ∃ shown,
       updateSupply supplyData timeRange s =
         Returned
           (mkState
              (<["wARTotalSupply"%string :=
                   mkChart
                     ((λ d, formatDate (newDate (supplyTime d))) <$> shown)
                     (mkDataset "wAR Total Supply" (wARSupply <$> shown)
                      :: rest)]> (charts s))
              (historicalData s)) ∧
       shown ≡ₚ filterDataByTimeRange _ supplyTime points timeRange ∧
       StronglySorted
         (λ a b, newDate (supplyTime a) ≤ newDate (supplyTime b)) shown).
Proof.
  split.
  - unfold updateSupplyChart.
    intros [Hnone|[-> | ->]]; [by rewrite Hnone|by destruct (charts s !! _)..].
  - intros chart ds rest points Hchart Hds -> Hne.
    exists (sort bySupplyTime
              (filterDataByTimeRange _ supplyTime points timeRange)).
    split_and!.
    + unfold updateSupplyChart. rewrite Hchart.
      destruct points as [|p points]; [done|].
      unfold setData, setLabel, setLabels. simpl. rewrite Hds. simpl. done.
    + apply sort_perm.
    + apply (sort_sorted (λ d, newDate (supplyTime d))). by intros a b.
Qed.
End SupplyChart.

(** * The further properties on sample data *)
Section FurtherExamples.
Import Sample Cases.

Lemma fetchNetworkInfo_cache_cycle_witness :
  let first :=
    fetchNetworkInfo 0 1000 (Json 7) (∅ : gmap string (CacheEntry Z)) in
  first.1 = Some 7 ∧
  fetchNetworkInfo 2000 3000 Rejected first.2 = (Some 7, first.2).
Proof.
  destruct (fetchNetworkInfo_cache_cycle 0 1000 7
              (∅ : gmap string (CacheEntry Z)))
    as (Hfirst & Hagain & _).
  { reflexivity. }
  split; [exact Hfirst|]. apply Hagain. reflexivity.
Defined.

Lemma dryrun_fetchers_repeat_witness :
  let first :=
    fetchBlockHistory parseBlocks 0 1000 (answer "DailyBlocks" "blocks") ∅ in
  fetchBlockHistory parseBlocks 2000 3000 Rejects first.2
  = (Some [mkBlock 3000 30; mkBlock 2000 20; mkBlock 1000 10], first.2).
Proof.
  intros first.
  apply (proj1 (dryrun_fetchers_repeat (S := unit) parseBlocks (λ _, None)
                  (λ _, None) parseDaily parseToday numberOf 0 1000 2000 3000
                  (answer "DailyBlocks" "blocks") Rejects) ∅).
  - reflexivity.
  - reflexivity.
  - reflexivity.
Defined.

Lemma fetchProcessData_served_from_cache_witness :
  ∃ results cache' trace,
    fetchProcessData network "wARTransfer" twelve 100 0 5 ∅
      = Some (results, cache', trace) ∧
    timestamp <$> results = endTime <$> twelve ∧
    fetchProcessData (λ _ _ _ _, Threw) "wARTransfer" twelveLater 200 1000 2000
      cache' = Some (results, cache', []).
Proof.
  apply fetchProcessData_served_from_cache.
  - reflexivity.
  - reflexivity.
  - reflexivity.
Defined.

Lemma fetchBlockHistory_sorted_witness :
  StronglySorted (λ a b, date b ≤ date a)
    [mkBlock 3000 30; mkBlock 2000 20; mkBlock 1000 10].
Proof.
  destruct (fetchBlockHistory_sorted parseBlocks 0 1000
              (answer "DailyBlocks" "blocks") ∅
              [mkBlock 3000 30; mkBlock 2000 20; mkBlock 1000 10]
              (cacheStore "block-history"
                 [mkBlock 3000 30; mkBlock 2000 20; mkBlock 1000 10] 1000 ∅))
    as (_ & _ & _ & _ & _ & _ & _ & _ & _ & _ & _ & _ & Hsorted).
  - reflexivity.
  - reflexivity.
  - exact Hsorted.
Defined.

Lemma streakData_sorted_with_defaults_witness :
  let out := default [] (streakData breakdownEntries) in
  StronglySorted (λ a b, streakTime a ≤ streakTime b) out ∧
  Api.day <$> out ≡ₚ breakdownEntries.*1.
Proof.
  intros out.
  destruct (streakData_sorted_with_defaults breakdownEntries out)
    as (Hsorted & Hdays & _).
  - reflexivity.
  - by split.
Defined.

Lemma fetchStargridStats_sorted_witness :
  let d :=
    [mkPoint (TString 0) (Some 2); mkPoint (TString 86400000) (Some 4)] in
  StronglySorted (λ a b, timeOf a ≤ timeOf b) d ∧
  usableItems (ItemPoint <$> d) = d.
Proof.
  intros d.
  destruct (fetchStargridStats_sorted parseDaily parseToday numberOf 0 1000
              (answer "DailyStats" "stats") ∅ d
              (cacheStore "stargrid-history" d 1000 ∅))
    as (Hsorted & _ & Husable).
  - reflexivity.
  - reflexivity.
  - by split.
Defined.

Lemma updateStandardChart_shows_history_witness :
  ∃ stored labels,
    updateStandardChart pretty pretty id "wARTransfer"
      [at_ 2000 5; at_ 1000 3] dashboard
    = Returned
        (mkState
           (<["wARTransfer"%string :=
                mkChart labels [mkDataset "wARTransfer" (count <$> stored)]]>
              (charts dashboard))
           (<["wARTransfer"%string := stored]> (historicalData dashboard))) ∧
    StronglySorted (λ a b, timeOf a ≤ timeOf b) stored.
Proof.
  destruct (proj2 (updateStandardChart_shows_history pretty pretty id
                     "wARTransfer" [at_ 2000 5; at_ 1000 3] dashboard)
              (emptyChart 1) (mkDataset "" []) [])
    as (stored & labels & Hrun & _ & Hsorted & _).
  - reflexivity.
  - reflexivity.
  - exists stored, labels. by split.
Defined.

Lemma cleanedHistory_order_independent_witness :
  cleanedHistory clock "wARTransfer" dashboard
  = cleanedHistory clock "wARTransfer"
      (setHistory "wARTransfer"
         [at_ day 1; at_ (day + 500) 7; at_ (day + 14 * msPerHour) 2]
         dashboard).
Proof.
  apply (cleanedHistory_order_independent clock "wARTransfer" dashboard _
           [at_ (day + 14 * msPerHour) 2; at_ (day + 500) 7; at_ day 1]
           [at_ day 1; at_ (day + 500) 7; at_ (day + 14 * msPerHour) 2]).
  - reflexivity.
  - reflexivity.
  - apply (reverse_Permutation [at_ day 1; at_ (day + 500) 7;
                                at_ (day + 14 * msPerHour) 2]).
  - apply (bool_decide_unpack _). by vm_compute.
Defined.

Lemma cleanedHistory_keeps_latest_midnight_witness :
  timeOf (at_ day 1) ≤ timeOf (at_ (day + 500) 7).
Proof.
  apply (cleanedHistory_keeps_latest_midnight clock "wARTransfer" dashboard
           [at_ (day + 14 * msPerHour) 2; at_ (day + 500) 7; at_ day 1]
           (at_ (day + 500) 7)).
  - reflexivity.
  - apply (bool_decide_unpack _). by vm_compute.
  - reflexivity.
  - reflexivity.
  - apply (bool_decide_unpack _). by vm_compute.
  - reflexivity.
  - reflexivity.
  - reflexivity.
Defined.

Lemma updateChartTimeRange_stores_filtered_witness :
  ∃ s',
    updateChartTimeRange pretty pretty keepAll id clock "wARTransfer" "all"
      dashboard = Returned s' ∧
    historicalData s' !! "wARTransfer"%string
    = Some [at_ (day + 500) 7; at_ (day + 14 * msPerHour) 2].
Proof.
  destruct (updateChartTimeRange_stores_filtered pretty pretty keepAll id
              clock "wARTransfer" "all" dashboard
              (emptyChart 1) (mkDataset "" []) [])
    as (s' & Hrun & Hstored).
  - intros l range. reflexivity.
  - done.
  - done.
  - reflexivity.
  - reflexivity.
  - cbv zeta in Hstored. destruct Hstored as (Hstored & _).
    exists s'. split; [exact Hrun|]. exact Hstored.
Defined.

Lemma updateChartTimeRange_touches_own_process_witness :
  historicalData
    (stateOf (updateChartTimeRange pretty pretty keepAll id clock
                "wUSDCTransfer" "all" dashboard)) !! "wARTransfer"%string
  = historicalData dashboard !! "wARTransfer"%string.
Proof.
  apply (updateChartTimeRange_touches_own_process pretty pretty keepAll id
           clock "wUSDCTransfer" "all" dashboard "wARTransfer").
  - done.
  - intros [_ Hother]. done.
Defined.

Lemma updateCombinedChart_consistent_witness :
  ∃ s' hp hs,
    updateCombinedChart pretty keepAll id "wUSDCTransfer" "USDATransfer" "all"
      dashboard = Returned s' ∧
    historicalData s' !! "wUSDCTransfer"%string = Some hp ∧
    historicalData s' !! "USDATransfer"%string = Some hs ∧
    timestamp <$> hp = timestamp <$> hs.
Proof.
  destruct (proj2 (proj2 (updateCombinedChart_consistent pretty keepAll id
                            "wUSDCTransfer" "USDATransfer" "all" dashboard))
              (emptyChart 2) (mkDataset "" []) (mkDataset "" []) [])
    as (s' & labels & v0 & v1 & hp & hs & Hrun & _ & Hp & Hs & _ & _ & _ & _
        & Htimes & _).
  - reflexivity.
  - reflexivity.
  - done.
  - intros [Hempty _]. vm_compute in Hempty. discriminate Hempty.
  - exists s', hp, hs. by split_and!.
Defined.

Lemma runeRealm_datasets_aligned_witness :
  let v := runeRealmView (λ l _, l) pretty streaks "all" in
  ∃ l m h, rr_low v !! 0%nat = Some l ∧ rr_medium v !! 0%nat = Some m ∧
           rr_high v !! 0%nat = Some h ∧ rr_total v !! 0%nat = Some (l + m + h).
Proof.
  intros v.
  destruct (runeRealm_datasets_aligned (λ l _, l) pretty streaks "all")
    as (_ & _ & _ & _ & _ & _ & _ & Hsum).
  apply (Hsum 0%nat). vm_compute. lia.
Defined.

Lemma runeRealm_never_blank_witness :
  shownStreaks (λ _ _, []) streaks "7d" = sort byStreakTime streaks.
Proof.
  apply (proj1 (runeRealm_never_blank (λ _ _, []) pretty streaks "7d")).
  simpl. lia.
Defined.

Lemma formattedData_points_witness :
  formattedData [("20226"%string, mkBreakdown None (Some 3) None);
                 ("today"%string, mkBreakdown (Some 1) None None)] = None ∧
  formattedData [("100000001"%string, mkBreakdown None (Some 3) None)] = None.
Proof.
  split.
  - apply (proj1 (proj2 (formattedData_points _)) "today"%string
             (mkBreakdown (Some 1) None None)).
    + right. left.
    + reflexivity.
  - apply (proj2 (proj2 (formattedData_points _)) "100000001"%string
             (mkBreakdown None (Some 3) None) 100000001).
    + left.
    + reflexivity.
    + reflexivity.
Defined.

Lemma day_key_round_trip_witness :
  (parseInt (pretty 20226) None = Integer 20226 ∧
   parseInt (pretty 20226) (Some 10) = Integer 20226) ∧
  (timestampMs (pretty 20226) = Some (20226 * 86400000) ∧
   dayNumberDate (pretty 20226) = Some (20226 * 86400000)) ∧
  (timestampMs (pretty 100000001) = None ∧
   dayNumberDate (pretty 100000001) = None).
Proof.
  split; [|split].
  - apply (proj1 (proj2 (proj2 (day_key_round_trip 20226)))). reflexivity.
  - apply (proj1 (proj2 (proj2 (proj2 (day_key_round_trip 20226))))).
    by vm_compute.
  - apply (proj2 (proj2 (proj2 (proj2 (day_key_round_trip 100000001))))).
    reflexivity.
Defined.

Lemma updateSupplyChart_shows_filtered_witness :
  ∃ shown,
    updateSupplyChart pretty keepAll
      (Some [mkSupplyPoint (TNumber 2000) (Some 9);
             mkSupplyPoint (TNumber 1000) (Some 8)]) "all"
      (setChart "wARTotalSupply" (emptyChart 1) dashboard)
    = Returned
        (mkState
           (<["wARTotalSupply"%string :=
                mkChart ((λ d, pretty (newDate (supplyTime d))) <$> shown)
                  [mkDataset "wAR Total Supply" (wARSupply <$> shown)]]>
              (charts (setChart "wARTotalSupply" (emptyChart 1) dashboard)))
           (historicalData dashboard)) ∧
    StronglySorted
      (λ a b, newDate (supplyTime a) ≤ newDate (supplyTime b)) shown.
Proof.
  destruct (proj2 (updateSupplyChart_shows_filtered pretty keepAll
                     (Some [mkSupplyPoint (TNumber 2000) (Some 9);
                            mkSupplyPoint (TNumber 1000) (Some 8)]) "all"
                     (setChart "wARTotalSupply" (emptyChart 1) dashboard))
              (emptyChart 1) (mkDataset "" []) []
              [mkSupplyPoint (TNumber 2000) (Some 9);
               mkSupplyPoint (TNumber 1000) (Some 8)])
    as (shown & Hrun & _ & Hsorted).
  - reflexivity.
  - reflexivity.
  - reflexivity.
  - done.
  - exists shown. by split.
Defined.
End FurtherExamples.
